(** * Gantt canvas core: stores, viewport transforms and indexes

    A shallow embedding of the scheduling core of the gantt-canvas
    repository:
    - [task-utils] (hydration of stored tasks),
    - the data store ([store/data-store.ts]) and the combined store
      ([createGanttStore]), whose task actions are the same code,
    - the separate UI store ([store/ui-store.ts]) with its drag actions,
    - the zundo [temporal] history wrapped around the stores,
    - the [ViewportManager] transforms,
    - the [SpatialIndex] and the dependency traversal of [IndexManager].

    JavaScript numbers are modelled as exact rationals [Q].  [Math.round x]
    is [floor (x + 1/2)], [Math.max]/[Math.min] are [Qmax]/[Qmin].  Q's
    [x / 0] is [0] where JavaScript yields an infinity or NaN, so the
    statements that divide keep the divisor non-zero. *)

From stdpp Require Import base gmap strings list.
From Stdlib Require Import QArith Qround Qminmax Lqa.

Open Scope Q_scope.

(** ** Numbers *)

Definition Math_round (x : Q) : Q := inject_Z (Qfloor (x + (1 # 2))).
Definition Math_max (a b : Q) : Q := Qmax a b.
Definition Math_min (a b : Q) : Q := Qmin a b.

#[global] Instance Q_eq_dec : EqDecision Q.
Proof.
  intros [a b] [c d].
  destruct (decide (a = c)), (decide (b = d));
    [left; congruence | right; congruence ..].
Defined.

(** ** Data model ([types/index.ts]) *)

Inductive PhaseType := setup | execution | cleanup.

Record TaskPhase := mkPhase {
  ptype : PhaseType;
  duration : Q;               (* minutes *)
  pcolor : option string
}.

Record Constraints := mkConstraints {
  earliestStart : option Q;
  latestEnd : option Q;
  fixedTime : option bool
}.

(** The display fields (name, color, priority, status, progress,
    metadata) are carried along unchanged by every action modelled here
    and are left out. *)
Record Task := mkTask {
  id : string;
  startTime : Q;              (* ms *)
  phases : list TaskPhase;
  _endTime : Q;
  _totalDuration : Q;         (* minutes *)
  resourceId : string;
  orderId : string;
  constraints : option Constraints
}.

(** [StoredTask = Omit<Task, "_endTime" | "_totalDuration">] *)
Record StoredTask := mkStoredTask {
  st_id : string;
  st_startTime : Q;
  st_phases : list TaskPhase;
  st_resourceId : string;
  st_orderId : string;
  st_constraints : option Constraints
}.

Inductive DependencyType := FS | FF | SS | SF.

Record TaskDependency := mkDependency {
  dep_id : string;
  predecessorId : string;
  successorId : string;
  dep_type : DependencyType;
  lag : Q
}.

Inductive ResourceType := operator | machine | generic.

Record Resource := mkResource {
  resource_id : string;
  resource_type : ResourceType;
  capacity : Q
}.

#[global] Instance PhaseType_eq_dec : EqDecision PhaseType.
Proof. solve_decision. Defined.
#[global] Instance TaskPhase_eq_dec : EqDecision TaskPhase.
Proof. solve_decision. Defined.
#[global] Instance Constraints_eq_dec : EqDecision Constraints.
Proof. solve_decision. Defined.
#[global] Instance Task_eq_dec : EqDecision Task.
Proof. solve_decision. Defined.
#[global] Instance DependencyType_eq_dec : EqDecision DependencyType.
Proof. solve_decision. Defined.
#[global] Instance TaskDependency_eq_dec : EqDecision TaskDependency.
Proof. solve_decision. Defined.

(** [task.constraints?.fixedTime] is truthy *)
Definition isFixedTime (t : Task) : bool :=
  match constraints t with
  | Some c => match fixedTime c with Some true => true | _ => false end
  | None => false
  end.

(** ** [utils/task-utils.ts] *)

(** [phases.reduce((sum, phase) => sum + phase.duration, 0)] *)
Definition calculateTotalDuration (ps : list TaskPhase) : Q :=
  fold_left (fun sum phase => sum + duration phase) ps 0.

Definition hydrateTask (task : StoredTask) : Task :=
  let totalDuration := calculateTotalDuration (st_phases task) in
  {| id := st_id task;
     startTime := st_startTime task;
     phases := st_phases task;
     _endTime := st_startTime task + totalDuration * 60 * 1000;
     _totalDuration := totalDuration;
     resourceId := st_resourceId task;
     orderId := st_orderId task;
     constraints := st_constraints task |}.

(** ** The data store ([store/data-store.ts]; the task actions of
    [createGanttStore] are the same code) *)

Record DataState := mkDataState {
  tasks : gmap string Task;
  resources : gmap string Resource;
  dependencies : gmap string TaskDependency;
  isLoading : bool;
  error : option string
}.

Definition initialDataState : DataState :=
  {| tasks := ∅; resources := ∅; dependencies := ∅;
     isLoading := false; error := None |}.

Definition set_tasks (m : gmap string Task) (s : DataState) : DataState :=
  {| tasks := m; resources := resources s; dependencies := dependencies s;
     isLoading := isLoading s; error := error s |}.

(** [Partial<StoredTask>]: [None] is an absent key. *)
Record TaskUpdate := mkTaskUpdate {
  upd_startTime : option Q;
  upd_phases : option (list TaskPhase);
  upd_resourceId : option string;
  upd_orderId : option string;
  upd_constraints : option (option Constraints)
}.

Definition noUpdate : TaskUpdate := mkTaskUpdate None None None None None.

(** [Object.assign(task, updates)] *)
Definition assign (t : Task) (u : TaskUpdate) : Task :=
  {| id := id t;
     startTime := default (startTime t) (upd_startTime u);
     phases := default (phases t) (upd_phases u);
     _endTime := _endTime t;
     _totalDuration := _totalDuration t;
     resourceId := default (resourceId t) (upd_resourceId u);
     orderId := default (orderId t) (upd_orderId u);
     constraints := default (constraints t) (upd_constraints u) |}.

Definition with_derived (t : Task) (tot endT : Q) : Task :=
  {| id := id t; startTime := startTime t; phases := phases t;
     _endTime := endT; _totalDuration := tot;
     resourceId := resourceId t; orderId := orderId t;
     constraints := constraints t |}.

(** The body of [updateTask] on the task collection. *)
Definition updateTask_tasks (taskId : string) (updates : TaskUpdate)
    (m : gmap string Task) : gmap string Task :=
  match m !! taskId with
  | Some task =>
      let task1 := assign task updates in
      let task2 :=
        if bool_decide (is_Some (upd_startTime updates))
           || bool_decide (is_Some (upd_phases updates))
        then
          let tot := calculateTotalDuration (phases task1) in
          with_derived task1 tot (startTime task1 + tot * 60 * 1000)
        else task1 in
      <[taskId := task2]> m
  | None => m
  end.

Definition setTasks (ts : list StoredTask) (s : DataState) : DataState :=
  set_tasks (fold_left (fun m task => <[st_id task := hydrateTask task]> m) ts ∅) s.

Definition addTask (task : StoredTask) (s : DataState) : DataState :=
  set_tasks (<[st_id task := hydrateTask task]> (tasks s)) s.

Definition updateTask (taskId : string) (updates : TaskUpdate)
    (s : DataState) : DataState :=
  set_tasks (updateTask_tasks taskId updates (tasks s)) s.

Definition updateTasks (ups : list (string * TaskUpdate)) (s : DataState)
    : DataState :=
  set_tasks (fold_left (fun m '(taskId, u) => updateTask_tasks taskId u m)
               ups (tasks s)) s.

Definition deleteTask (taskId : string) (s : DataState) : DataState :=
  {| tasks := delete taskId (tasks s);
     resources := resources s;
     dependencies :=
       filter (fun kv : string * TaskDependency =>
                 ~ (predecessorId kv.2 = taskId \/ successorId kv.2 = taskId))
              (dependencies s);
     isLoading := isLoading s; error := error s |}.

Definition moveTask_one (deltaTime : Q) (newResourceId : option string)
    (m : gmap string Task) (taskId : string) : gmap string Task :=
  match m !! taskId with
  | Some task =>
      if isFixedTime task then m
      else
        let st := startTime task + deltaTime in
        <[taskId := {| id := id task; startTime := st; phases := phases task;
                       _endTime := st + _totalDuration task * 60 * 1000;
                       _totalDuration := _totalDuration task;
                       resourceId := default (resourceId task) newResourceId;
                       orderId := orderId task;
                       constraints := constraints task |}]> m
  | None => m
  end.

Definition moveTasks (taskIds : list string) (deltaTime : Q)
    (newResourceId : option string) (s : DataState) : DataState :=
  set_tasks (fold_left (moveTask_one deltaTime newResourceId) taskIds (tasks s)) s.

Definition setLoading (b : bool) (s : DataState) : DataState :=
  {| tasks := tasks s; resources := resources s;
     dependencies := dependencies s; isLoading := b; error := error s |}.


(** ** Viewport ([ViewportState], [ViewportManager], the viewport actions
    of both stores, which are the same code) *)

Inductive ZoomLevel := hour | day | week | month.

Record ViewportState := mkViewport {
  scrollX : Q;
  timeOrigin : Q;
  pixelsPerHour : Q;
  scrollY : Q;
  rowHeight : Q;
  width : Q;
  height : Q;
  zoomLevel : ZoomLevel
}.

Definition getZoomLevel (pph : Q) : ZoomLevel :=
  if Qle_bool 30 pph then hour
  else if Qle_bool 5 pph then day
  else if Qle_bool 1 pph then week
  else month.

Definition MS_PER_HOUR : Q := 60 * 60 * 1000.

Definition timeToX (v : ViewportState) (timestamp : Q) : Q :=
  let hoursFromOrigin := (timestamp - timeOrigin v) / MS_PER_HOUR in
  hoursFromOrigin * pixelsPerHour v - scrollX v.

Definition xToTime (v : ViewportState) (x : Q) : Q :=
  let hoursFromOrigin := (x + scrollX v) / pixelsPerHour v in
  timeOrigin v + hoursFromOrigin * MS_PER_HOUR.

Definition panViewport (deltaX deltaY : Q) (v : ViewportState) : ViewportState :=
  {| scrollX := Math_max 0 (scrollX v + deltaX);
     timeOrigin := timeOrigin v;
     pixelsPerHour := pixelsPerHour v;
     scrollY := Math_max 0 (scrollY v + deltaY);
     rowHeight := rowHeight v; width := width v; height := height v;
     zoomLevel := zoomLevel v |}.

Definition zoomViewport (factor centerX : Q) (v : ViewportState) : ViewportState :=
  let oldPixelsPerHour := pixelsPerHour v in
  let newPixelsPerHour :=
    Math_max (1 # 4) (Math_min 120 (oldPixelsPerHour * factor)) in
  let scrollXOffset := centerX + scrollX v in
  let timeOffset := scrollXOffset / oldPixelsPerHour in
  let newScrollX := timeOffset * newPixelsPerHour - centerX in
  {| scrollX := Math_max 0 newScrollX;
     timeOrigin := timeOrigin v;
     pixelsPerHour := newPixelsPerHour;
     scrollY := scrollY v;
     rowHeight := rowHeight v; width := width v; height := height v;
     zoomLevel := getZoomLevel newPixelsPerHour |}.

(** Zoom-based snap intervals in minutes *)
Definition ZOOM_SNAP_INTERVALS (z : ZoomLevel) : Q :=
  match z with hour => 15 | day => 60 | week => 360 | month => 1440 end.

Definition getSnapIntervalMs (z : ZoomLevel) (minResolution : Q) : Q :=
  let effectiveSnapMinutes := Math_max (ZOOM_SNAP_INTERVALS z) minResolution in
  effectiveSnapMinutes * 60 * 1000.

(** ** Drag state *)

Inductive DragType := move | resize_start | resize_end | reassign.

Record DragState := mkDrag {
  dtype : DragType;
  dtaskId : string;
  originalTask : Task;
  previewStartTime : Q;
  previewEndTime : Q;
  previewResourceId : string;
  collisions : list string;
  dependencyViolations : list (string * string);
  startX : Q;
  startY : Q;
  currentX : Q;
  currentY : Q
}.

(** The drag state created by [startDrag]. *)
Definition newDrag (type : DragType) (taskId : string) (task : Task)
    (sx sy : Q) : DragState :=
  {| dtype := type; dtaskId := taskId; originalTask := task;
     previewStartTime := startTime task;
     previewEndTime := _endTime task;
     previewResourceId := resourceId task;
     collisions := []; dependencyViolations := [];
     startX := sx; startY := sy; currentX := sx; currentY := sy |}.

(** The body of [updateDrag], given the viewport and the minimum duration
    of a resize ([15 * 60 * 1000] in the UI store,
    [minResolution * 60 * 1000] in the combined store). *)
Definition updateDrag_body (v : ViewportState) (minDurationMs : Q)
    (cx cy : Q) (d : DragState) : DragState :=
  let deltaX := cx - startX d in
  let hoursPerPixel := 1 / pixelsPerHour v in
  let deltaTimeMs := deltaX * hoursPerPixel * 60 * 60 * 1000 in
  let ot := originalTask d in
  let pst := previewStartTime d in
  let pet := previewEndTime d in
  let '(pst', pet') :=
    match dtype d with
    | move | reassign => (startTime ot + deltaTimeMs, _endTime ot + deltaTimeMs)
    | resize_start => (Math_min (startTime ot + deltaTimeMs)
                                (_endTime ot - minDurationMs), pet)
    | resize_end => (pst, Math_max (_endTime ot + deltaTimeMs)
                                   (startTime ot + minDurationMs))
    end in
  {| dtype := dtype d; dtaskId := dtaskId d; originalTask := ot;
     previewStartTime := pst'; previewEndTime := pet';
     previewResourceId := previewResourceId d;
     collisions := collisions d;
     dependencyViolations := dependencyViolations d;
     startX := startX d; startY := startY d;
     currentX := cx; currentY := cy |}.

(** The phases written by a resize commit. *)
Definition scalePhases (ps : list TaskPhase) (scaleFactor : Q) : list TaskPhase :=
  map (fun phase => {| ptype := ptype phase;
                       duration := Math_round (duration phase * scaleFactor);
                       pcolor := pcolor phase |}) ps.

(** The data-store effect of a commit, given the (possibly snapped)
    start and end time; [None] is the [TypeError] a resize raises when the
    task is gone from the store ([originalTask._totalDuration]). *)
Definition commit_effect (d : DragState) (newStart newEnd : Q)
    (data : DataState) : option DataState :=
  let taskId := dtaskId d in
  match dtype d with
  | move | reassign =>
      Some (updateTask taskId
              (mkTaskUpdate (Some newStart) None
                            (Some (previewResourceId d)) None None) data)
  | resize_start | resize_end =>
      match tasks data !! taskId with
      | None => None
      | Some originalTask =>
          let newDurationMs := newEnd - newStart in
          let newDurationMinutes := newDurationMs / (60 * 1000) in
          let scaleFactor := newDurationMinutes / _totalDuration originalTask in
          let newPhases := scalePhases (phases originalTask) scaleFactor in
          Some (updateTask taskId
                  (mkTaskUpdate (Some newStart) (Some newPhases) None None None)
                  data)
      end
  end.

(** ** The separate UI store ([store/ui-store.ts]); its drag actions read
    and write the data store.  Selection, grouping, hover and sidebar state
    are not used by the actions modelled and are left out. *)
Module UIStore.

Record UIState := mkUIState {
  viewport : ViewportState;
  drag : option DragState
}.

Definition startDrag (data : DataState) (taskId : string) (type : DragType)
    (sx sy : Q) (s : UIState) : UIState :=
  match tasks data !! taskId with
  | None => s
  | Some task =>
      if isFixedTime task then s
      else mkUIState (viewport s) (Some (newDrag type taskId task sx sy))
  end.

Definition updateDrag (cx cy : Q) (s : UIState) : UIState :=
  match drag s with
  | None => s
  | Some d =>
      mkUIState (viewport s)
        (Some (updateDrag_body (viewport s) (15 * 60 * 1000) cx cy d))
  end.

Definition commitDrag (s : UIState) (data : DataState)
    : option (UIState * DataState) :=
  match drag s with
  | None => Some (s, data)
  | Some d =>
      if bool_decide (0 < length (dependencyViolations d))%nat
      then Some (mkUIState (viewport s) None, data)
      else
        match commit_effect d (previewStartTime d) (previewEndTime d) data with
        | Some data' => Some (mkUIState (viewport s) None, data')
        | None => None
        end
  end.

End UIStore.

(** ** The combined store of [createGanttStore] *)
Module GanttStore.

Record GanttState := mkGanttState {
  data : DataState;
  viewport : ViewportState;
  drag : option DragState;
  minResolution : Q
}.

Definition set_drag (dr : option DragState) (s : GanttState) : GanttState :=
  mkGanttState (data s) (viewport s) dr (minResolution s).

Definition startDrag (taskId : string) (type : DragType) (sx sy : Q)
    (s : GanttState) : GanttState :=
  match tasks (data s) !! taskId with
  | None => s
  | Some task =>
      if isFixedTime task then s
      else set_drag (Some (newDrag type taskId task sx sy)) s
  end.

Definition updateDrag (cx cy : Q) (s : GanttState) : GanttState :=
  match drag s with
  | None => s
  | Some d =>
      let minDurationMs := minResolution s * 60 * 1000 in
      set_drag (Some (updateDrag_body (viewport s) minDurationMs cx cy d)) s
  end.

Definition snap (interval t : Q) : Q :=
  Math_round (t / interval) * interval.

Definition commitDrag (s : GanttState) : option GanttState :=
  match drag s with
  | None => Some s
  | Some d =>
      if bool_decide (0 < length (dependencyViolations d))%nat
      then Some (set_drag None s)
      else
        let snapInterval :=
          getSnapIntervalMs (zoomLevel (viewport s)) (minResolution s) in
        let snappedStartTime := snap snapInterval (previewStartTime d) in
        let snappedEndTime := snap snapInterval (previewEndTime d) in
        match commit_effect d snappedStartTime snappedEndTime (data s) with
        | Some data' => Some (mkGanttState data' (viewport s) None (minResolution s))
        | None => None
        end
  end.

End GanttStore.

(** ** The zundo [temporal] middleware

    [_store.setState] / the wrapped [set]: the state before the update is
    saved, and pushed on [pastStates] (dropping the oldest entry when the
    history holds [limit] entries, and clearing [futureStates]) unless
    [equality pastState currentState] holds.  [undo] takes the newest past
    state back and saves the current one on [futureStates]. *)
Module Temporal.
Section Temporal.
Context {S : Type}.
Variable equality : S -> S -> bool.
Variable limit : nat.

Record TemporalState := mkTemporal {
  present : S;
  pastStates : list S;
  futureStates : list S
}.

Definition handleSet (pastState : S) (ts : TemporalState) : TemporalState :=
  let past :=
    if (0 <? limit)%nat && (limit <=? length (pastStates ts))%nat
    then tail (pastStates ts) else pastStates ts in
  mkTemporal (present ts) (past ++ [pastState]) [].

Definition tset (f : S -> S) (ts : TemporalState) : TemporalState :=
  let pastState := present ts in
  let currentState := f pastState in
  let ts1 := mkTemporal currentState (pastStates ts) (futureStates ts) in
  if equality pastState currentState then ts1 else handleSet pastState ts1.

Definition undo (ts : TemporalState) : TemporalState :=
  match rev (pastStates ts) with
  | [] => ts
  | nextState :: older =>
      mkTemporal nextState (rev older) (futureStates ts ++ [present ts])
  end.

End Temporal.
End Temporal.

(** What Immer's [produce] hands back to the data store's [set]: the next
    state, and whether the recipe wrote a new value into the [tasks] or
    the [dependencies] draft.  A written draft is finalized into a new
    object, an unwritten one is the base object itself, and when nothing
    was written the result is the base state. *)
Record Produced := mkProduced {
  produced : DataState;
  tasksModified : bool;
  depsModified : bool
}.

(** The data store's state with the identities of its [tasks] and
    [dependencies] objects.  The only identities zundo compares are those
    of the state before a [set] and of the state that [set] produced from
    it, so a finalized (new) object gets an identity other than its
    base's. *)
Record DataRef := mkDataRef {
  cur : DataState;
  tasksRef : nat;
  depsRef : nat
}.

(** [set(recipe)] through Immer. *)
Definition immerSet (recipe : DataState -> Produced) (d : DataRef) : DataRef :=
  let p := recipe (cur d) in
  mkDataRef (produced p)
    (if tasksModified p then S (tasksRef d) else tasksRef d)
    (if depsModified p then S (depsRef d) else depsRef d).

(** The options of the data store: [limit: 50] and
    [pastState.tasks === currentState.tasks &&
     pastState.dependencies === currentState.dependencies]. *)
Definition dataEquality (a b : DataRef) : bool :=
  Nat.eqb (tasksRef a) (tasksRef b) && Nat.eqb (depsRef a) (depsRef b).

Definition HISTORY_LIMIT : nat := 50.

Definition DataHistory := @Temporal.TemporalState DataRef.

Definition trackedSet (recipe : DataState -> Produced) (ts : DataHistory) : DataHistory :=
  Temporal.tset dataEquality HISTORY_LIMIT (immerSet recipe) ts.

Definition undo (ts : DataHistory) : DataHistory := Temporal.undo ts.

Definition freshHistory (s : DataState) : DataHistory :=
  Temporal.mkTemporal (mkDataRef s 0 0) [] [].

(** [draft.field = v] marks the draft modified unless
    [Object.is(draft.field, v)]; on the numbers (Q here) and strings the
    moves write, [Object.is] is equality. *)
Definition writes_number (current v : Q) : bool := negb (Qeq_bool current v).

Definition writes_string (current v : string) : bool := negb (String.eqb current v).

(** Whether one iteration of the [moveTasks] loop writes a new value:
    [task.startTime += deltaTime], [task._endTime = ...], and
    [task.resourceId = newResourceId] when it is given. *)
Definition moveTask_one_writes (deltaTime : Q) (newResourceId : option string)
    (m : gmap string Task) (taskId : string) : bool :=
  match m !! taskId with
  | Some task =>
      if isFixedTime task then false
      else
        let st := startTime task + deltaTime in
        writes_number (startTime task) st
        || writes_number (_endTime task) (st + _totalDuration task * 60 * 1000)
        || match newResourceId with
           | Some r => writes_string (resourceId task) r
           | None => false
           end
  | None => false
  end.

(** The [moveTasks] recipe under Immer: only the [tasks] draft is written. *)
Definition moveTasks_recipe (taskIds : list string) (deltaTime : Q)
    (newResourceId : option string) (s : DataState) : Produced :=
  let '(m, modified) :=
    fold_left (fun '(m, modified) taskId =>
                 (moveTask_one deltaTime newResourceId m taskId,
                  modified || moveTask_one_writes deltaTime newResourceId m taskId))
              taskIds (tasks s, false) in
  if modified then mkProduced (set_tasks m s) true false
  else mkProduced s false false.

(** [updateTask(taskId, { startTime, resourceId })], the update a move
    drag commits: [Object.assign] writes the two keys, then the derived
    fields are written since [startTime] is given. *)
Definition updateTask_move_recipe (taskId : string) (newStart : Q) (newResourceId : string)
    (s : DataState) : Produced :=
  match tasks s !! taskId with
  | Some task =>
      let tot := calculateTotalDuration (phases task) in
      let modified :=
        writes_number (startTime task) newStart
        || writes_string (resourceId task) newResourceId
        || writes_number (_totalDuration task) tot
        || writes_number (_endTime task) (newStart + tot * 60 * 1000) in
      if modified
      then mkProduced (updateTask taskId (mkTaskUpdate (Some newStart) None
                                            (Some newResourceId) None None) s) true false
      else mkProduced s false false
  | None => mkProduced s false false
  end.

(** A committed task move: [moveTasks], or the [updateTask] a move drag
    commits. *)
Inductive TaskMove :=
  | MoveTasks (taskIds : list string) (deltaTime : Q) (newResourceId : option string)
  | MoveByUpdate (taskId : string) (newStart : Q) (newResourceId : string).

Definition applyMove (mv : TaskMove) : DataState -> Produced :=
  match mv with
  | MoveTasks ids dt r => moveTasks_recipe ids dt r
  | MoveByUpdate tid st r => updateTask_move_recipe tid st r
  end.

(** ** Spatial index ([indexes/spatial-index.ts]) *)

Record VirtualRow := mkRow {
  row_id : string;
  row_resourceId : option string;
  virtualY : Q;
  row_height : Q;
  isGroupHeader : bool
}.

Record BBox := mkBBox { minX : Q; minY : Q; maxX : Q; maxY : Q }.

Record RBushItem := mkItem { item_box : BBox; item_taskId : string }.

(** [rbush]'s [intersects(a, b)] (closed boxes). *)
Definition intersects (a b : BBox) : bool :=
  Qle_bool (minX b) (maxX a) && Qle_bool (minY b) (maxY a)
  && Qle_bool (minX a) (maxX b) && Qle_bool (minY a) (maxY b).

(** [tree.search(bbox)]: every loaded item whose box intersects [bbox] (the
    R-tree only prunes nodes whose box misses [bbox]; the order of the
    results is not used). *)
Definition search (q : BBox) (tree : list RBushItem) : list RBushItem :=
  List.filter (fun it => intersects q (item_box it)) tree.

Record SpatialIndex := mkSpatialIndex {
  tree : list RBushItem;
  taskBoundsMap : gmap string BBox
}.

(** [rowByResource]: [if (row.resourceId)] skips a null or empty id; a
    later row with the same resource replaces an earlier one. *)
Definition rowByResource (virtualRows : list VirtualRow) : gmap string VirtualRow :=
  fold_left (fun m row =>
               match row_resourceId row with
               | Some r => if String.eqb r "" then m else <[r := row]> m
               | None => m
               end) virtualRows ∅.

Definition taskBounds (task : Task) (row : VirtualRow) : BBox :=
  {| minX := startTime task; minY := virtualY row;
     maxX := _endTime task; maxY := virtualY row + row_height row |}.

Fixpoint build_items (rbr : gmap string VirtualRow) (ts : list Task)
    : list RBushItem :=
  match ts with
  | [] => []
  | task :: rest =>
      match rbr !! resourceId task with
      | None => build_items rbr rest
      | Some row => mkItem (taskBounds task row) (id task) :: build_items rbr rest
      end
  end.

Definition build_bounds (rbr : gmap string VirtualRow) (ts : list Task)
    : gmap string BBox :=
  fold_left (fun m task =>
               match rbr !! resourceId task with
               | None => m
               | Some row => <[id task := taskBounds task row]> m
               end) ts ∅.

(** [rebuild] clears both structures and bulk-loads the new items. *)
Definition rebuild (ts : list Task) (virtualRows : list VirtualRow) : SpatialIndex :=
  let rbr := rowByResource virtualRows in
  {| tree := build_items rbr ts; taskBoundsMap := build_bounds rbr ts |}.

Definition queryPoint (idx : SpatialIndex) (timestamp vY : Q) : list string :=
  map item_taskId (search (mkBBox timestamp vY timestamp vY) (tree idx)).

(** ** Dependency traversal ([IndexManager.getDependencyChain]) *)

Inductive Direction := predecessors | successors | both.

Record DependencyIndex := mkDependencyIndex {
  predecessorIndex : gmap string (list string);
  successorIndex : gmap string (list string)
}.

Definition getPredecessors (im : DependencyIndex) (taskId : string) : list string :=
  default [] (predecessorIndex im !! taskId).

Definition getSuccessors (im : DependencyIndex) (taskId : string) : list string :=
  default [] (successorIndex im !! taskId).

Definition usesPredecessors (d : Direction) : bool :=
  match d with predecessors | both => true | successors => false end.

Definition usesSuccessors (d : Direction) : bool :=
  match d with successors | both => true | predecessors => false end.

Definition notVisited (visited : list string) (x : string) : bool :=
  if in_dec (fun a b : string => decide (a = b)) x visited then false else true.

(** The [while (queue.length > 0)] loop, with [fuel] bounding the number of
    iterations ([None] when it runs out). *)
Fixpoint chain_loop (im : DependencyIndex) (direction : Direction) (fuel : nat)
    (visited queue : list string) : option (list string) :=
  match fuel with
  | O => None
  | S fuel' =>
      match queue with
      | [] => Some visited
      | current :: rest =>
          if in_dec (fun a b : string => decide (a = b)) current visited
          then chain_loop im direction fuel' visited rest
          else
            let visited' := visited ++ [current] in
            let q1 := if usesPredecessors direction
                      then rest ++ List.filter (notVisited visited') (getPredecessors im current)
                      else rest in
            let q2 := if usesSuccessors direction
                      then q1 ++ List.filter (notVisited visited') (getSuccessors im current)
                      else q1 in
            chain_loop im direction fuel' visited' q2
      end
  end.

(** [visited.delete(taskId); return Array.from(visited)] *)
Definition getDependencyChain (fuel : nat) (im : DependencyIndex) (taskId : string)
    (direction : Direction) : option (list string) :=
  match chain_loop im direction fuel [] [taskId] with
  | Some visited => Some (List.filter (fun x => negb (String.eqb x taskId)) visited)
  | None => None
  end.

(** Every task id the adjacency maps mention. *)
Definition adjacencyTargets (im : DependencyIndex) : list string :=
  concat (map snd (map_to_list (predecessorIndex im)))
  ++ concat (map snd (map_to_list (successorIndex im))).

(** A number of iterations the loop never exceeds. *)
Definition chainFuel (im : DependencyIndex) (taskId : string) : nat :=
  S (S (length (taskId :: adjacencyTargets im)
        * S (length (adjacencyTargets im)))).

(** ** Concrete inputs used by the examples and witnesses *)

Definition vp0 : ViewportState :=
  {| scrollX := 0; timeOrigin := 0; pixelsPerHour := 10; scrollY := 0;
     rowHeight := 40; width := 800; height := 600; zoomLevel := day |}.

Definition phases140 : list TaskPhase :=
  [mkPhase setup 20 None; mkPhase execution 100 None; mkPhase cleanup 20 None].

Definition task140 : Task :=
  hydrateTask (mkStoredTask "t1" 0 phases140 "r1" "o1" None).

Definition data140 : DataState := set_tasks {[ "t1" := task140 ]} initialDataState.

Definition durations (ps : list TaskPhase) : list Q := map duration ps.

(** [if (!task || task.constraints?.fixedTime) return;] *)
Definition dragRefused (m : gmap string Task) (taskId : string) : bool :=
  match m !! taskId with None => true | Some t => isFixedTime t end.

Definition fixedTask : Task :=
  hydrateTask (mkStoredTask "f1" 0 phases140 "r1" "o1"
                 (Some (mkConstraints None None (Some true)))).

Definition dataFixed : DataState := set_tasks {[ "f1" := fixedTask ]} initialDataState.

Definition ui0 : UIStore.UIState := UIStore.mkUIState vp0 None.

Definition gs0 (d : DataState) (z : ZoomLevel) (minRes : Q) : GanttStore.GanttState :=
  GanttStore.mkGanttState d
    {| scrollX := 0; timeOrigin := 0; pixelsPerHour := 10; scrollY := 0;
       rowHeight := 40; width := 800; height := 600; zoomLevel := z |}
    None minRes.

(** The derived fields of a task agree with its phases and start. *)
Definition taskConsistent (t : Task) : Prop :=
  _totalDuration t == calculateTotalDuration (phases t) /\
  _endTime t == startTime t + _totalDuration t * 60000.

Definition storeConsistent (s : DataState) : Prop :=
  map_Forall (fun _ t => taskConsistent t) (tasks s).

(** The data-store operations, and the data effect of the drag commits of
    both stores ([None] from a commit is a thrown error: nothing changes). *)
Inductive StoreOp :=
  | OSetTasks (ts : list StoredTask)
  | OAddTask (task : StoredTask)
  | OUpdateTask (taskId : string) (u : TaskUpdate)
  | OUpdateTasks (ups : list (string * TaskUpdate))
  | OMoveTasks (taskIds : list string) (deltaTime : Q) (newResourceId : option string)
  | ODeleteTask (taskId : string)
  | OSetLoading (b : bool)
  | OCommitDragUI (ui : UIStore.UIState)
  | OCommitDragCombined (vp : ViewportState) (dr : option DragState) (minRes : Q).

Definition applyOp (op : StoreOp) (s : DataState) : DataState :=
  match op with
  | OSetTasks ts => setTasks ts s
  | OAddTask t => addTask t s
  | OUpdateTask tid u => updateTask tid u s
  | OUpdateTasks ups => updateTasks ups s
  | OMoveTasks ids dt r => moveTasks ids dt r s
  | ODeleteTask tid => deleteTask tid s
  | OSetLoading b => setLoading b s
  | OCommitDragUI ui =>
      match UIStore.commitDrag ui s with Some (_, s') => s' | None => s end
  | OCommitDragCombined vp dr mr =>
      match GanttStore.commitDrag (GanttStore.mkGanttState s vp dr mr) with
      | Some g => GanttStore.data g
      | None => s
      end
  end.

Definition runOps (ops : list StoreOp) (s : DataState) : DataState :=
  fold_left (fun s op => applyOp op s) ops s.

Definition moveR1 : TaskMove := MoveTasks ["t1"] 3600000 None.

(** The tasks one traversal step reaches from [v] in [direction]. *)
Definition nextTasks (im : DependencyIndex) (direction : Direction) (v : string)
    : list string :=
  (if usesPredecessors direction then getPredecessors im v else [])
  ++ (if usesSuccessors direction then getSuccessors im v else []).

Inductive reachable (im : DependencyIndex) (direction : Direction) (origin : string)
    : string -> Prop :=
  | reach_refl : reachable im direction origin origin
  | reach_step (x y : string) :
      reachable im direction origin x -> In y (nextTasks im direction x) ->
      reachable im direction origin y.

Definition row1 : VirtualRow := mkRow "row-r1" (Some "r1") 0 40 false.

(** The ids the traversal can ever touch, and the size of its adjacency. *)
Definition chainU (im : DependencyIndex) (origin : string) : list string :=
  origin :: adjacencyTargets im.

Definition chainD (im : DependencyIndex) : nat := length (adjacencyTargets im).

(** The loop invariant of the traversal. *)
Definition chainInv (im : DependencyIndex) (direction : Direction) (origin : string)
    (visited queue : list string) : Prop :=
  List.NoDup visited /\ incl visited (chainU im origin) /\ incl queue (chainU im origin) /\
  (forall x, In x visited \/ In x queue -> reachable im direction origin x) /\
  (forall v w, In v visited -> In w (nextTasks im direction v) ->
               In w visited \/ In w queue) /\
  (In origin visited \/ In origin queue).

Definition chainMeasure (im : DependencyIndex) (origin : string) (visited queue : list string) : nat :=
  ((length (chainU im origin) - length visited) * S (chainD im) + length queue)%nat.

Definition isResize (t : DragType) : bool :=
  match t with resize_start | resize_end => true | move | reassign => false end.



(** The phase durations of task [taskId] after a UI-store commit. *)
Definition committedDurations (r : option (UIStore.UIState * DataState))
    (taskId : string) : option (option (list Q)) :=
  option_map (fun '(_, d) => option_map (fun t => durations (phases t)) (tasks d !! taskId)) r.

Definition committedDurationsG (r : option GanttStore.GanttState)
    (taskId : string) : option (option (list Q)) :=
  option_map (fun s => option_map (fun t => durations (phases t))
                         (tasks (GanttStore.data s) !! taskId)) r.

(** ** More of [utils/task-utils.ts] *)

(** JavaScript's [a < b] on numbers. *)
Definition JS_lt (a b : Q) : bool := negb (Qle_bool b a).

Definition calculateEndTime (startTime : Q) (phases : list TaskPhase) : Q :=
  let totalMinutes := calculateTotalDuration phases in
  startTime + totalMinutes * 60 * 1000.

Record PhaseRange := mkRange {
  range_type : PhaseType;
  range_start : Q;
  range_end : Q;
  range_color : option string
}.

(** The [for (const phase of task.phases)] loop of [getPhaseRanges], from
    [currentStart]. *)
Fixpoint phaseRanges_from (currentStart : Q) (ps : list TaskPhase) : list PhaseRange :=
  match ps with
  | [] => []
  | phase :: rest =>
      let phaseDurationMs := duration phase * 60 * 1000 in
      mkRange (ptype phase) currentStart (currentStart + phaseDurationMs) (pcolor phase)
        :: phaseRanges_from (currentStart + phaseDurationMs) rest
  end.

Definition getPhaseRanges (task : Task) : list PhaseRange :=
  phaseRanges_from (startTime task) (phases task).

Definition tasksOverlap (a b : Task) : bool :=
  JS_lt (startTime a) (_endTime b) && JS_lt (startTime b) (_endTime a).

Definition taskOverlapsRange (task : Task) (rangeStart rangeEnd : Q) : bool :=
  JS_lt (startTime task) rangeEnd && JS_lt rangeStart (_endTime task).

Definition snapToInterval (timestamp intervalMinutes : Q) : Q :=
  let intervalMs := intervalMinutes * 60 * 1000 in
  Math_round (timestamp / intervalMs) * intervalMs.

(** ** More of [engine/viewport-manager.ts].  The methods read
    [this.viewport]; they are written on the viewport itself, and the
    manager record is used where the canvas rectangle is read.  Of the
    [DOMRect] only [left] and [top] are read. *)

Record DOMRect := mkRect { rect_left : Q; rect_top : Q }.

Record ViewportManager := mkViewportManager {
  vm_viewport : ViewportState;
  canvasRect : option DOMRect
}.

Definition virtualYToY (v : ViewportState) (vY : Q) : Q := vY - scrollY v.

Definition yToVirtualY (v : ViewportState) (y : Q) : Q := y + scrollY v.

Definition dataToViewport (v : ViewportState) (timestamp vY : Q) : Q * Q :=
  (timeToX v timestamp, virtualYToY v vY).

Definition durationToWidth (v : ViewportState) (durationMs : Q) : Q :=
  let hours := durationMs / MS_PER_HOUR in hours * pixelsPerHour v.

Definition viewportToData (v : ViewportState) (x y : Q) : Q * Q :=
  (xToTime v x, yToVirtualY v y).

Definition widthToDuration (v : ViewportState) (w : Q) : Q :=
  let hours := w / pixelsPerHour v in hours * MS_PER_HOUR.

Definition screenToViewport (vm : ViewportManager) (screenX screenY : Q)
    : option (Q * Q) :=
  match canvasRect vm with
  | None => None
  | Some r => Some (screenX - rect_left r, screenY - rect_top r)
  end.

Definition screenToData (vm : ViewportManager) (screenX screenY : Q)
    : option (Q * Q) :=
  match screenToViewport vm screenX screenY with
  | None => None
  | Some (x, y) => Some (viewportToData (vm_viewport vm) x y)
  end.

Definition getVisibleTimeRange (v : ViewportState) : Q * Q :=
  (xToTime v 0, xToTime v (width v)).

Definition getVisibleYRange (v : ViewportState) : Q * Q :=
  (scrollY v, scrollY v + height v).

Definition isTimeRangeVisible (v : ViewportState) (s e : Q) : bool :=
  let '(start, end_) := getVisibleTimeRange v in JS_lt s end_ && JS_lt start e.

Definition isYRangeVisible (v : ViewportState) (minY' maxY' : Q) : bool :=
  let '(start, end_) := getVisibleYRange v in JS_lt minY' end_ && JS_lt start maxY'.

Definition isVisible (v : ViewportState) (s e minY' maxY' : Q) : bool :=
  isTimeRangeVisible v s e && isYRangeVisible v minY' maxY'.

Definition calculateZoomToFit (v : ViewportState) (s e padding : Q) : Q :=
  let durationHours := (e - s) / MS_PER_HOUR in
  let availableWidth := width v - padding * 2 in
  availableWidth / durationHours.

(** [ZOOM_SNAP_INTERVALS[zoomLevel] ?? 60]: every zoom level has an entry. *)
Definition getSnapInterval (v : ViewportState) (minResolution : Q) : Q :=
  let effectiveSnapMinutes := Math_max (ZOOM_SNAP_INTERVALS (zoomLevel v)) minResolution in
  effectiveSnapMinutes * 60 * 1000.

Definition snapToGrid (v : ViewportState) (timestamp minResolution : Q) : Q :=
  let interval := getSnapInterval v minResolution in
  Math_round (timestamp / interval) * interval.

(** ** The other viewport actions of both stores (the same code) *)

(** [ZOOM_CONFIGS[level].pixelsPerHour] *)
Definition ZOOM_CONFIGS_pixelsPerHour (z : ZoomLevel) : Q :=
  match z with hour => 60 | day => 10 | week => 2 | month => 1 # 2 end.

Definition with_viewport (v : ViewportState) (sx pph sy : Q) (z : ZoomLevel)
    : ViewportState :=
  {| scrollX := sx; timeOrigin := timeOrigin v; pixelsPerHour := pph;
     scrollY := sy; rowHeight := rowHeight v; width := width v;
     height := height v; zoomLevel := z |}.

Definition setZoomLevel (level : ZoomLevel) (v : ViewportState) : ViewportState :=
  with_viewport v (scrollX v) (ZOOM_CONFIGS_pixelsPerHour level) (scrollY v) level.

Definition scrollToTime (timestamp : Q) (v : ViewportState) : ViewportState :=
  let hoursFromOrigin := (timestamp - timeOrigin v) / (60 * 60 * 1000) in
  with_viewport v (hoursFromOrigin * pixelsPerHour v - width v / 2)
    (pixelsPerHour v) (scrollY v) (zoomLevel v).

Definition scrollToRow (rowIndex : Q) (v : ViewportState) : ViewportState :=
  with_viewport v (scrollX v) (pixelsPerHour v) (rowIndex * rowHeight v) (zoomLevel v).

(** [Partial<ViewportState>]: [None] is an absent key. *)
Record ViewportUpdate := mkViewportUpdate {
  vu_scrollX : option Q; vu_timeOrigin : option Q; vu_pixelsPerHour : option Q;
  vu_scrollY : option Q; vu_rowHeight : option Q; vu_width : option Q;
  vu_height : option Q; vu_zoomLevel : option ZoomLevel
}.

Definition setViewport (u : ViewportUpdate) (v : ViewportState) : ViewportState :=
  let v1 := {| scrollX := default (scrollX v) (vu_scrollX u);
               timeOrigin := default (timeOrigin v) (vu_timeOrigin u);
               pixelsPerHour := default (pixelsPerHour v) (vu_pixelsPerHour u);
               scrollY := default (scrollY v) (vu_scrollY u);
               rowHeight := default (rowHeight v) (vu_rowHeight u);
               width := default (width v) (vu_width u);
               height := default (height v) (vu_height u);
               zoomLevel := default (zoomLevel v) (vu_zoomLevel u) |} in
  match vu_pixelsPerHour u with
  | Some pph => with_viewport v1 (scrollX v1) (pixelsPerHour v1) (scrollY v1)
                  (getZoomLevel pph)
  | None => v1
  end.

(** [setSidebarWidth]: the new [sidebarWidth]. *)
Definition setSidebarWidth (w : Q) : Q := Math_max 100 (Math_min 400 w).

(** ** Selection and grouping actions of both stores (the same code, except
    that [selectAllTasks] reads the data store's tasks in the UI store and
    the store's own tasks in the combined store).  A JavaScript [Set] is
    read here only through [has], [add] and [delete]: a [gset]. *)

Record SelectionState := mkSelection {
  sel_taskIds : gset string;
  sel_resourceIds : gset string;
  lastSelectedTaskId : option string
}.

Inductive SelectMode := sel_replace | sel_add | sel_toggle.

Definition selectTask (taskId : string) (mode : SelectMode) (s : SelectionState)
    : SelectionState :=
  let ids :=
    match mode with
    | sel_replace => {[ taskId ]}
    | sel_add => {[ taskId ]} ∪ sel_taskIds s
    | sel_toggle =>
        if decide (taskId ∈ sel_taskIds s) then sel_taskIds s ∖ {[ taskId ]}
        else {[ taskId ]} ∪ sel_taskIds s
    end in
  mkSelection ids (sel_resourceIds s) (Some taskId).

(** [selectTasks(taskIds, mode)] with [mode] "replace" ([true]) or "add". *)
Definition selectTasks (taskIds : list string) (replaceMode : bool)
    (s : SelectionState) : SelectionState :=
  let ids := if replaceMode then list_to_set taskIds
             else list_to_set taskIds ∪ sel_taskIds s in
  let lastSel := match last taskIds with
                 | Some x => Some x
                 | None => lastSelectedTaskId s
                 end in
  mkSelection ids (sel_resourceIds s) lastSel.

Definition clearSelection (s : SelectionState) : SelectionState :=
  mkSelection ∅ ∅ None.

(** [new Set(Object.keys(tasks))] *)
Definition selectAllTasks (m : gmap string Task) (s : SelectionState) : SelectionState :=
  mkSelection (dom m) (sel_resourceIds s) (lastSelectedTaskId s).

(** ["order" | "resource_type" | "none"] *)
Inductive GroupingMode := by_order | by_resource_type | no_grouping.

Record GroupingState := mkGrouping {
  grouping_mode : GroupingMode;
  expandedGroups : gset string
}.

Definition setGroupingMode (mode : GroupingMode) (g : GroupingState) : GroupingState :=
  mkGrouping mode ∅.

Definition toggleGroup (groupId : string) (g : GroupingState) : GroupingState :=
  mkGrouping (grouping_mode g)
    (if decide (groupId ∈ expandedGroups g) then expandedGroups g ∖ {[ groupId ]}
     else {[ groupId ]} ∪ expandedGroups g).

(** ** The other indexes of [IndexManager.buildIndexes] *)

(** [if (!m.has(k)) m.set(k, new Set()); m.get(k)?.add(x)]; the [Set] is
    a list in insertion order without duplicates, as [Array.from] returns. *)
Definition setAdd (x : string) (l : list string) : list string :=
  if in_dec (fun a b : string => decide (a = b)) x l then l else l ++ [x].

Definition addToIndex (k x : string) (m : gmap string (list string))
    : gmap string (list string) :=
  <[k := setAdd x (default [] (m !! k))]> m.

(** The loop bodies of [buildIndexes] update independent maps; each map is
    written as its own fold over the same list. *)
Definition buildResourceIndex (ts : list Task) : gmap string (list string) :=
  fold_left (fun m task => addToIndex (resourceId task) (id task) m) ts ∅.

Definition buildOrderIndex (ts : list Task) : gmap string (list string) :=
  fold_left (fun m task => addToIndex (orderId task) (id task) m) ts ∅.

Definition buildPredecessorIndex (deps : list TaskDependency) : gmap string (list string) :=
  fold_left (fun m dep => addToIndex (successorId dep) (predecessorId dep) m) deps ∅.

Definition buildSuccessorIndex (deps : list TaskDependency) : gmap string (list string) :=
  fold_left (fun m dep => addToIndex (predecessorId dep) (successorId dep) m) deps ∅.

Definition buildDependencyMap (deps : list TaskDependency) : gmap string TaskDependency :=
  fold_left (fun m dep => <[dep_id dep := dep]> m) deps ∅.

(** [for (const taskId of [dep.predecessorId, dep.successorId])] *)
Definition buildTaskDependenciesIndex (deps : list TaskDependency)
    : gmap string (list string) :=
  fold_left (fun m dep =>
               addToIndex (successorId dep) (dep_id dep)
                 (addToIndex (predecessorId dep) (dep_id dep) m)) deps ∅.

Record IndexManager := mkIndexManager {
  im_spatialIndex : SpatialIndex;
  resourceTasksIndex : gmap string (list string);
  orderTasksIndex : gmap string (list string);
  im_dependencies : DependencyIndex;
  dependencyMap : gmap string TaskDependency;
  taskDependenciesIndex : gmap string (list string);
  im_virtualRows : list VirtualRow;
  rowByResourceId : gmap string VirtualRow
}.

Definition buildIndexes (ts : list Task) (deps : list TaskDependency)
    (virtualRows : list VirtualRow) : IndexManager :=
  {| im_spatialIndex := rebuild ts virtualRows;
     resourceTasksIndex := buildResourceIndex ts;
     orderTasksIndex := buildOrderIndex ts;
     im_dependencies := mkDependencyIndex (buildPredecessorIndex deps)
                                          (buildSuccessorIndex deps);
     dependencyMap := buildDependencyMap deps;
     taskDependenciesIndex := buildTaskDependenciesIndex deps;
     im_virtualRows := virtualRows;
     rowByResourceId := rowByResource virtualRows |}.

Definition getTasksByResource (im : IndexManager) (r : string) : list string :=
  default [] (resourceTasksIndex im !! r).

Definition getTasksByOrder (im : IndexManager) (o : string) : list string :=
  default [] (orderTasksIndex im !! o).

(** [depIds.map(id => dependencyMap.get(id)).filter(d => d !== undefined)] *)
Definition getTaskDependencies (im : IndexManager) (taskId : string)
    : list TaskDependency :=
  match taskDependenciesIndex im !! taskId with
  | None => []
  | Some depIds => omap (fun i => dependencyMap im !! i) depIds
  end.

(** The [for (const row of this.virtualRows)] loop of [getResourceAtY]. *)
Fixpoint resourceAtY (rows : list VirtualRow) (vY : Q) : option string :=
  match rows with
  | [] => None
  | row :: rest =>
      match row_resourceId row with
      | Some r =>
          if negb (isGroupHeader row) && negb (String.eqb r "")
             && Qle_bool (virtualY row) vY && JS_lt vY (virtualY row + row_height row)
          then Some r else resourceAtY rest vY
      | None => resourceAtY rest vY
      end
  end.

Definition getResourceAtY (im : IndexManager) (vY : Q) : option string :=
  resourceAtY (im_virtualRows im) vY.

(** The index of the first element satisfying [p] (the [for] loops with
    [break] of [getVisibleRows]). *)
Fixpoint findIndex {A} (p : A -> bool) (l : list A) : option nat :=
  match l with
  | [] => None
  | x :: rest => if p x then Some 0%nat else option_map S (findIndex p rest)
  end.

Definition BUFFER : nat := 3.

(** [getVisibleRows(scrollY, viewportHeight)]: the rows, [startIndex] and
    [endIndex].  The second loop starts at [startIndex]; [Math.max(0,
    startIndex - BUFFER)] is the truncated subtraction on indices, and
    [slice(startIndex, endIndex)] is [take (endIndex - startIndex)] of
    [drop startIndex]. *)
Definition getVisibleRows (rows : list VirtualRow) (scrollY' viewportHeight : Q)
    : list VirtualRow * nat * nat :=
  match rows with
  | [] => ([], 0%nat, 0%nat)
  | _ =>
      let startIndex :=
        default 0%nat (findIndex (fun row => JS_lt scrollY' (virtualY row + row_height row)) rows) in
      let endIndex :=
        match findIndex (fun row => JS_lt (scrollY' + viewportHeight) (virtualY row))
                (drop startIndex rows) with
        | Some j => (startIndex + j)%nat
        | None => length rows
        end in
      let startIndex' := (startIndex - BUFFER)%nat in
      let endIndex' := Nat.min (length rows) (endIndex + BUFFER) in
      (take (endIndex' - startIndex') (drop startIndex' rows), startIndex', endIndex')
  end.

Definition getTotalHeight (rows : list VirtualRow) : Q :=
  match last rows with
  | None => 0
  | Some lastRow => virtualY lastRow + row_height lastRow
  end.

Definition queryRect (idx : SpatialIndex) (minX' minY' maxX' maxY' : Q) : list string :=
  map item_taskId (search (mkBBox minX' minY' maxX' maxY') (tree idx)).

(** [queryTimeRange] searches with [minY = -Infinity] and [maxY =
    Infinity]: the two Y tests of [intersects] hold for every finite box,
    so only the X tests remain. *)
Definition queryTimeRange (idx : SpatialIndex) (s e : Q) : list string :=
  map item_taskId
    (List.filter (fun it => Qle_bool (minX (item_box it)) e
                            && Qle_bool s (maxX (item_box it))) (tree idx)).

Definition getTaskBounds (idx : SpatialIndex) (taskId : string) : option BBox :=
  taskBoundsMap idx !! taskId.

(** The task [moveTasks] writes for a task it moves. *)
Definition moved_task (deltaTime : Q) (newResourceId : option string) (task : Task) : Task :=
  let st := startTime task + deltaTime in
  {| id := id task; startTime := st; phases := phases task;
     _endTime := st + _totalDuration task * 60 * 1000;
     _totalDuration := _totalDuration task;
     resourceId := default (resourceId task) newResourceId;
     orderId := orderId task;
     constraints := constraints task |}.

(** What one [moveTask_one] step does at its own key. *)
Definition move_at (deltaTime : Q) (newResourceId : option string) (o : option Task)
    : option Task :=
  match o with
  | Some task => if isFixedTime task then Some task
                 else Some (moved_task deltaTime newResourceId task)
  | None => None
  end.

(** ** Dependency actions of the data store *)

Definition set_dependencies (m : gmap string TaskDependency) (s : DataState) : DataState :=
  {| tasks := tasks s; resources := resources s; dependencies := m;
     isLoading := isLoading s; error := error s |}.

Definition setDependencies (deps : list TaskDependency) (s : DataState) : DataState :=
  set_dependencies (fold_left (fun m dep => <[dep_id dep := dep]> m) deps ∅) s.

Definition addDependency (dep : TaskDependency) (s : DataState) : DataState :=
  set_dependencies (<[dep_id dep := dep]> (dependencies s)) s.

Definition removeDependency (dependencyId : string) (s : DataState) : DataState :=
  set_dependencies (delete dependencyId (dependencies s)) s.



(** Task [y] is linked to [origin] through the dependency list in
    [direction]: a chain of dependencies followed backwards (from a
    successor to its predecessor) when the direction includes
    predecessors, and forwards when it includes successors. *)
Inductive depLinked (deps : list TaskDependency) (direction : Direction) (origin : string)
    : string -> Prop :=
  | link_refl : depLinked deps direction origin origin
  | link_pred (dep : TaskDependency) :
      In dep deps -> usesPredecessors direction = true ->
      depLinked deps direction origin (successorId dep) ->
      depLinked deps direction origin (predecessorId dep)
  | link_succ (dep : TaskDependency) :
      In dep deps -> usesSuccessors direction = true ->
      depLinked deps direction origin (predecessorId dep) ->
      depLinked deps direction origin (successorId dep).

(** Twelve stacked rows of height 40. *)
Definition rows12 : list VirtualRow :=
  map (fun k => mkRow "row" (Some "r") (inject_Z (Z.of_nat k) * 40) 40 false) (seq 0 12).

(** * Properties *)

Example hydrate_example : _endTime task140 == 8400000.
Proof. reflexivity. Qed.

Example zoom_example :
  pixelsPerHour (zoomViewport 2 100 vp0) == 20 /\
  scrollX (zoomViewport 2 100 vp0) == 100.
Proof. split; reflexivity. Qed.

(** ** Viewport transforms *)

(** C7: for every viewport whose [pixelsPerHour] lies within the zoom
    bounds [0.25, 120] and every timestamp [t],
    [xToTime (timeToX t) = t] (exactly, over the rationals). *)
Theorem xToTime_timeToX (v : ViewportState) (t : Q) :
  (1 # 4) <= pixelsPerHour v <= 120 -> xToTime v (timeToX v t) == t.
Proof.
  intros [Hlo _]. unfold xToTime, timeToX, MS_PER_HOUR.
  field. intro H. lra.
Qed.

Lemma xToTime_timeToX_witness :
  ((1 # 4) <= pixelsPerHour vp0 <= 120) /\ xToTime vp0 (timeToX vp0 123456) == 123456.
Proof.
  split; [split; discriminate | apply xToTime_timeToX; split; discriminate].
Defined.






(** ** Drag start *)

(** C9: [startDrag] on an id absent from the store, or on a task whose
    [constraints.fixedTime] is true, changes nothing (in particular creates
    no [DragState]), in the UI store and in the combined store alike. *)
Theorem startDrag_refused (taskId : string) (type : DragType) (sx sy : Q)
    (dataS : DataState) (ui : UIStore.UIState) (g : GanttStore.GanttState) :
  dragRefused (tasks dataS) taskId = true ->
  dragRefused (tasks (GanttStore.data g)) taskId = true ->
  UIStore.startDrag dataS taskId type sx sy ui = ui /\
  GanttStore.startDrag taskId type sx sy g = g.
Proof.
  unfold dragRefused, UIStore.startDrag, GanttStore.startDrag.
  intros H1 H2. split.
  - destruct (tasks dataS !! taskId); [rewrite H1|]; reflexivity.
  - destruct (tasks (GanttStore.data g) !! taskId); [rewrite H2|]; reflexivity.
Qed.

Lemma startDrag_refused_witness :
  (dragRefused (tasks dataFixed) "f1" = true /\
   dragRefused (tasks (GanttStore.data (gs0 dataFixed day 30))) "f1" = true) /\
  (UIStore.startDrag dataFixed "f1" move 5 5 ui0 = ui0 /\
   GanttStore.startDrag "f1" move 5 5 (gs0 dataFixed day 30)
   = gs0 dataFixed day 30).
Proof.
  split; [split; reflexivity |].
  apply startDrag_refused; reflexivity.
Defined.

(** ** Derived task fields *)

Lemma hydrateTask_consistent (st : StoredTask) : taskConsistent (hydrateTask st).
Proof. unfold taskConsistent, hydrateTask; simpl. split; [reflexivity | ring]. Qed.

Lemma updateTask_tasks_consistent (taskId : string) (u : TaskUpdate)
    (m : gmap string Task) :
  map_Forall (fun _ t => taskConsistent t) m ->
  map_Forall (fun _ t => taskConsistent t) (updateTask_tasks taskId u m).
Proof.
  intros Hm. unfold updateTask_tasks.
  destruct (m !! taskId) as [task|] eqn:Hl; [|exact Hm].
  apply map_Forall_insert_2; [|exact Hm].
  destruct (bool_decide (is_Some (upd_startTime u))
            || bool_decide (is_Some (upd_phases u))) eqn:Hr.
  - unfold taskConsistent, with_derived; simpl. split; [reflexivity | ring].
  - apply orb_false_iff in Hr as [Hs Hp].
    apply bool_decide_eq_false in Hs, Hp.
    destruct (upd_startTime u) eqn:E1; [exfalso; apply Hs; eexists; reflexivity|].
    destruct (upd_phases u) eqn:E2; [exfalso; apply Hp; eexists; reflexivity|].
    pose proof (map_Forall_lookup_1 _ _ _ _ Hm Hl) as Ht.
    unfold taskConsistent, assign in *; simpl. rewrite E1, E2. exact Ht.
Qed.

Lemma moveTask_one_consistent (dt : Q) (r : option string)
    (m : gmap string Task) (taskId : string) :
  map_Forall (fun _ t => taskConsistent t) m ->
  map_Forall (fun _ t => taskConsistent t) (moveTask_one dt r m taskId).
Proof.
  intros Hm. unfold moveTask_one.
  destruct (m !! taskId) as [task|] eqn:Hl; [|exact Hm].
  destruct (isFixedTime task); [exact Hm|].
  apply map_Forall_insert_2; [|exact Hm].
  pose proof (map_Forall_lookup_1 _ _ _ _ Hm Hl) as [Ht _].
  unfold taskConsistent; simpl. split; [exact Ht | ring].
Qed.

Lemma updateTask_consistent (taskId : string) (u : TaskUpdate) (s : DataState) :
  storeConsistent s -> storeConsistent (updateTask taskId u s).
Proof. apply updateTask_tasks_consistent. Qed.

Lemma commit_effect_consistent (d : DragState) (st en : Q) (s s' : DataState) :
  storeConsistent s -> commit_effect d st en s = Some s' -> storeConsistent s'.
Proof.
  intros Hs. unfold commit_effect.
  destruct (dtype d).
  2, 3: destruct (tasks s !! dtaskId d); [|discriminate].
  all: intros [= <-]; apply updateTask_consistent; exact Hs.
Qed.

Lemma applyOp_consistent (op : StoreOp) (s : DataState) :
  storeConsistent s -> storeConsistent (applyOp op s).
Proof.
  intros Hs. destruct op as [ts|t|tid u|ups|ids dt r|tid|b|ui|vp dr mr]; simpl.
  - unfold storeConsistent, setTasks; simpl.
    assert (Hgen : forall m : gmap string Task,
      map_Forall (fun _ t => taskConsistent t) m ->
      map_Forall (fun _ t => taskConsistent t)
        (fold_left (fun m task => <[st_id task := hydrateTask task]> m) ts m)).
    { induction ts as [|x xs IH]; intros m Hm; simpl; [exact Hm|].
      apply IH, map_Forall_insert_2; [apply hydrateTask_consistent | exact Hm]. }
    apply Hgen, map_Forall_empty.
  - apply map_Forall_insert_2; [apply hydrateTask_consistent | exact Hs].
  - apply updateTask_consistent, Hs.
  - unfold storeConsistent, updateTasks; simpl.
    revert Hs. unfold storeConsistent. generalize (tasks s) as m.
    induction ups as [|[tid u] xs IH]; intros m Hm; simpl; [exact Hm|].
    apply IH, updateTask_tasks_consistent, Hm.
  - unfold storeConsistent, moveTasks; simpl.
    revert Hs. unfold storeConsistent. generalize (tasks s) as m.
    induction ids as [|x xs IH]; intros m Hm; simpl; [exact Hm|].
    apply IH, moveTask_one_consistent, Hm.
  - apply map_Forall_delete, Hs.
  - exact Hs.
  - unfold UIStore.commitDrag.
    destruct (UIStore.drag ui) as [d|]; [|exact Hs].
    destruct (bool_decide _); [exact Hs|].
    destruct (commit_effect d _ _ s) as [s'|] eqn:E; [|exact Hs].
    eapply commit_effect_consistent; [exact Hs | exact E].
  - unfold GanttStore.commitDrag; simpl.
    destruct dr as [d|]; [|exact Hs].
    destruct (bool_decide _); [exact Hs|].
    destruct (commit_effect d _ _ s) as [s'|] eqn:E; [|exact Hs]; simpl.
    eapply commit_effect_consistent; [exact Hs | exact E].
Qed.

(** C5: from the initial (empty) store, after any sequence of store
    operations ([setTasks], [addTask], [updateTask], [updateTasks],
    [moveTasks], [deleteTask], [setLoading], and the drag commits of both
    stores), every task has [_totalDuration] equal to the sum of its phase
    durations and [_endTime = startTime + _totalDuration * 60000]. *)
Theorem store_derived_fields_fresh (ops : list StoreOp) :
  storeConsistent (runOps ops initialDataState).
Proof.
  unfold runOps.
  assert (H : forall s, storeConsistent s ->
            storeConsistent (fold_left (fun s op => applyOp op s) ops s)).
  { induction ops as [|op ops IH]; intros s Hs; simpl; [exact Hs|].
    apply IH, applyOp_consistent, Hs. }
  apply H, map_Forall_empty.
Qed.

(** ** Undo history *)

Section HistoryFacts.
Context {St : Type} (equality : St -> St -> bool) (limit : nat).

Definition historyStartsAt (d : St) (ts : @Temporal.TemporalState St) : Prop :=
  match Temporal.pastStates ts with
  | [] => Temporal.present ts = d
  | q :: _ => q = d
  end.

Lemma tset_unshifted (f : St -> St) (ts : @Temporal.TemporalState St) :
  (length (Temporal.pastStates ts) < limit)%nat ->
  Temporal.tset equality limit f ts =
  if equality (Temporal.present ts) (f (Temporal.present ts))
  then Temporal.mkTemporal (f (Temporal.present ts)) (Temporal.pastStates ts)
         (Temporal.futureStates ts)
  else Temporal.mkTemporal (f (Temporal.present ts))
         (Temporal.pastStates ts ++ [Temporal.present ts]) [].
Proof.
  intros Hlen. unfold Temporal.tset, Temporal.handleSet; simpl.
  destruct (equality _ _); [reflexivity|].
  replace ((0 <? limit)%nat && (limit <=? length (Temporal.pastStates ts))%nat)
    with false; [reflexivity|].
  symmetry. apply andb_false_iff. right. apply Nat.leb_gt. exact Hlen.
Qed.

Lemma tset_history (d : St) (f : St -> St) (ts : @Temporal.TemporalState St) :
  (forall p, equality p (f p) = true -> f p = p) ->
  (length (Temporal.pastStates ts) < limit)%nat ->
  historyStartsAt d ts ->
  historyStartsAt d (Temporal.tset equality limit f ts) /\
  (length (Temporal.pastStates (Temporal.tset equality limit f ts))
   <= S (length (Temporal.pastStates ts)))%nat.
Proof.
  intros Hf Hlen Hinv. rewrite tset_unshifted by exact Hlen.
  destruct (equality _ _) eqn:E.
  - rewrite (Hf _ E). split; [exact Hinv | simpl; lia].
  - unfold historyStartsAt in *; simpl.
    rewrite length_app; simpl. split; [|lia].
    destruct (Temporal.pastStates ts); simpl; congruence.
Qed.

Lemma undo_history (d : St) (ts : @Temporal.TemporalState St) :
  historyStartsAt d ts ->
  historyStartsAt d (Temporal.undo ts) /\
  length (Temporal.pastStates (Temporal.undo ts))
  = (length (Temporal.pastStates ts) - 1)%nat.
Proof.
  intros Hinv. unfold Temporal.undo.
  destruct (rev (Temporal.pastStates ts)) as [|q older] eqn:E.
  - apply (f_equal (@rev St)) in E. rewrite rev_involutive in E.
    rewrite E. split; [exact Hinv | reflexivity].
  - assert (Hp : Temporal.pastStates ts = rev older ++ [q]).
    { rewrite <- (rev_involutive (Temporal.pastStates ts)), E. reflexivity. }
    unfold historyStartsAt in *; simpl. rewrite Hp in Hinv |- *.
    rewrite length_app; simpl. split; [|lia].
    destruct (rev older); simpl in *; congruence.
Qed.

Lemma undo_empty (ts : @Temporal.TemporalState St) :
  Temporal.pastStates ts = [] -> Temporal.undo ts = ts.
Proof. intros H. unfold Temporal.undo. rewrite H. reflexivity. Qed.

Lemma tset_bounded (f : St -> St) (ts : @Temporal.TemporalState St) :
  (0 < limit)%nat ->
  (length (Temporal.pastStates ts) <= limit)%nat ->
  (length (Temporal.pastStates (Temporal.tset equality limit f ts)) <= limit)%nat.
Proof.
  intros Hpos Hlen. unfold Temporal.tset, Temporal.handleSet; simpl.
  destruct (equality _ _); simpl; [exact Hlen|].
  destruct ((0 <? limit)%nat && (limit <=? length (Temporal.pastStates ts))%nat) eqn:E;
    rewrite length_app; simpl.
  - destruct (Temporal.pastStates ts); simpl in *; lia.
  - apply andb_false_iff in E as [E|E].
    + apply Nat.ltb_ge in E. lia.
    + apply Nat.leb_gt in E. lia.
Qed.

End HistoryFacts.

Lemma applyMove_unmodified (mv : TaskMove) (s : DataState) :
  tasksModified (applyMove mv s) = false -> produced (applyMove mv s) = s /\
  depsModified (applyMove mv s) = false.
Proof.
  destruct mv as [ids dt r | tid st r]; simpl.
  - unfold moveTasks_recipe.
    destruct (fold_left _ ids (tasks s, false)) as [m modified].
    destruct modified; simpl; [discriminate | auto].
  - unfold updateTask_move_recipe.
    destruct (tasks s !! tid); simpl; [|auto].
    destruct (_ || _); simpl; [discriminate | auto].
Qed.

(** When the recipe of a move writes, its state is the store's [moveTasks]
    or [updateTask]. *)
Lemma applyMove_produced (mv : TaskMove) (s : DataState) :
  tasksModified (applyMove mv s) = true ->
  produced (applyMove mv s) =
  match mv with
  | MoveTasks ids dt r => moveTasks ids dt r s
  | MoveByUpdate tid st r => updateTask tid (mkTaskUpdate (Some st) None (Some r) None None) s
  end.
Proof.
  destruct mv as [ids dt r | tid st r]; simpl.
  - unfold moveTasks_recipe, moveTasks.
    assert (Hf : forall l m b,
      fold_left (fun '(m, modified) taskId =>
                   (moveTask_one dt r m taskId, modified || moveTask_one_writes dt r m taskId))
                l (m, b)
      = (fold_left (moveTask_one dt r) l m,
         snd (fold_left (fun '(m, modified) taskId =>
                   (moveTask_one dt r m taskId, modified || moveTask_one_writes dt r m taskId))
                l (m, b)))).
    { induction l as [|x l IH]; intros m b; simpl; [reflexivity|]. apply IH. }
    rewrite Hf. destruct (snd _); simpl; [reflexivity | discriminate].
  - unfold updateTask_move_recipe.
    destruct (tasks s !! tid); simpl; [|discriminate].
    destruct (_ || _); simpl; [reflexivity | discriminate].
Qed.

Lemma applyMove_frame (mv : TaskMove) (d : DataRef) :
  dataEquality d (immerSet (applyMove mv) d) = true -> immerSet (applyMove mv) d = d.
Proof.
  unfold dataEquality, immerSet; simpl. intros H.
  apply andb_true_iff in H as [Ht _].
  destruct (tasksModified (applyMove mv (cur d))) eqn:E.
  - apply Nat.eqb_eq in Ht. lia.
  - destruct (applyMove_unmodified mv (cur d) E) as [Hp Hd].
    rewrite Hp, Hd. destruct d; reflexivity.
Qed.

(** C4: from a store with an empty history, after three committed task
    moves ([moveTasks] or the [updateTask] of a move commit), three undos
    give back the original store (so its task collection exactly) and a
    fourth undo changes nothing; every tracked update keeps the history at
    most 50 entries long; an update whose recipe writes neither the
    [tasks] nor the [dependencies] draft pushes no entry, and one that
    writes either pushes the state before it.  The tracked state
    [DataState] has no viewport, selection or drag fields: those live in
    the UI store. *)
Theorem undo_three_moves (s : DataState) (m1 m2 m3 : TaskMove) :
  let ts3 := trackedSet (applyMove m3)
               (trackedSet (applyMove m2) (trackedSet (applyMove m1) (freshHistory s))) in
  let ts6 := undo (undo (undo ts3)) in
  (cur (Temporal.present ts6) = s /\ tasks (cur (Temporal.present ts6)) = tasks s /\
   undo ts6 = ts6) /\
  (forall (recipe : DataState -> Produced) (ts : DataHistory),
     (length (Temporal.pastStates ts) <= 50)%nat ->
     (length (Temporal.pastStates (trackedSet recipe ts)) <= 50)%nat) /\
  (forall (recipe : DataState -> Produced) (ts : DataHistory),
     tasksModified (recipe (cur (Temporal.present ts))) = false ->
     depsModified (recipe (cur (Temporal.present ts))) = false ->
     Temporal.pastStates (trackedSet recipe ts) = Temporal.pastStates ts) /\
  (forall (recipe : DataState -> Produced) (ts : DataHistory),
     tasksModified (recipe (cur (Temporal.present ts))) = true \/
     depsModified (recipe (cur (Temporal.present ts))) = true ->
     last (Temporal.pastStates (trackedSet recipe ts)) = Some (Temporal.present ts)).
Proof.
  intros ts3 ts6. split; [|split; [|split]].
  - set (d0 := mkDataRef s 0 0).
    assert (H0 : historyStartsAt d0 (freshHistory s)) by reflexivity.
    unfold ts6, ts3, trackedSet, undo.
    set (t1 := Temporal.tset dataEquality HISTORY_LIMIT (immerSet (applyMove m1)) (freshHistory s)).
    set (t2 := Temporal.tset dataEquality HISTORY_LIMIT (immerSet (applyMove m2)) t1).
    set (t3 := Temporal.tset dataEquality HISTORY_LIMIT (immerSet (applyMove m3)) t2).
    destruct (tset_history dataEquality HISTORY_LIMIT d0 (immerSet (applyMove m1)) (freshHistory s)
                (applyMove_frame m1) ltac:(simpl; unfold HISTORY_LIMIT; lia) H0)
      as [H1 L1].
    fold t1 in H1, L1. simpl in L1.
    destruct (tset_history dataEquality HISTORY_LIMIT d0 (immerSet (applyMove m2)) t1
                (applyMove_frame m2) ltac:(unfold HISTORY_LIMIT; lia) H1) as [H2 L2].
    fold t2 in H2, L2.
    destruct (tset_history dataEquality HISTORY_LIMIT d0 (immerSet (applyMove m3)) t2
                (applyMove_frame m3) ltac:(unfold HISTORY_LIMIT; lia) H2) as [H3 L3].
    fold t3 in H3, L3.
    destruct (undo_history d0 _ H3) as [H4 L4].
    destruct (undo_history d0 _ H4) as [H5 L5].
    destruct (undo_history d0 _ H5) as [H6 L6].
    assert (Hnil : Temporal.pastStates
      (Temporal.undo (Temporal.undo (Temporal.undo t3))) = []).
    { apply length_zero_iff_nil. lia. }
    unfold historyStartsAt in H6. rewrite Hnil in H6.
    split; [rewrite H6; reflexivity | split; [rewrite H6; reflexivity | apply undo_empty, Hnil]].
  - intros recipe ts Hlen. apply tset_bounded; [unfold HISTORY_LIMIT; lia | exact Hlen].
  - intros recipe ts Ht Hd. unfold trackedSet, Temporal.tset.
    replace (dataEquality (Temporal.present ts) (immerSet recipe (Temporal.present ts)))
      with true; [reflexivity|].
    symmetry. unfold dataEquality, immerSet; simpl. rewrite Ht, Hd.
    rewrite !Nat.eqb_refl. reflexivity.
  - intros recipe ts Hm. unfold trackedSet, Temporal.tset.
    replace (dataEquality (Temporal.present ts) (immerSet recipe (Temporal.present ts)))
      with false.
    + unfold Temporal.handleSet; simpl. apply last_snoc.
    + symmetry. unfold dataEquality, immerSet; simpl.
      apply andb_false_iff.
      destruct Hm as [Hm|Hm]; rewrite Hm; [left|right]; apply Nat.eqb_neq; lia.
Qed.

Lemma undo_three_moves_witness :
  cur (Temporal.present
    (undo (undo (undo (trackedSet (applyMove moveR1)
       (trackedSet (applyMove moveR1) (trackedSet (applyMove moveR1)
          (freshHistory data140)))))))) = data140.
Proof. exact (proj1 (proj1 (undo_three_moves data140 moveR1 moveR1 moveR1))). Defined.

Example undo_example :
  Temporal.pastStates (trackedSet (applyMove moveR1) (freshHistory data140))
  = [mkDataRef data140 0 0].
Proof. vm_compute. reflexivity. Qed.

(** ** Spatial index *)

Lemma build_items_in (rbr : gmap string VirtualRow) (ts : list Task)
    (task : Task) (row : VirtualRow) :
  In task ts -> rbr !! resourceId task = Some row ->
  In (mkItem (taskBounds task row) (id task)) (build_items rbr ts).
Proof.
  intros Hin Hrow. induction ts as [|t ts IH]; [destruct Hin|].
  destruct Hin as [<-|Hin]; simpl.
  - rewrite Hrow. left. reflexivity.
  - destruct (rbr !! resourceId t); [right|]; apply IH, Hin.
Qed.

Lemma build_items_origin (rbr : gmap string VirtualRow) (ts : list Task)
    (it : RBushItem) :
  In it (build_items rbr ts) ->
  exists t row, In t ts /\ rbr !! resourceId t = Some row /\
                it = mkItem (taskBounds t row) (id t).
Proof.
  induction ts as [|t ts IH]; simpl; [intros []|].
  destruct (rbr !! resourceId t) as [row|] eqn:E.
  - intros [<-|Hin].
    + exists t, row. auto.
    + destruct (IH Hin) as (t' & row' & ? & ? & ?). exists t', row'. auto.
  - intros Hin. destruct (IH Hin) as (t' & row' & ? & ? & ?). exists t', row'. auto.
Qed.

Lemma NoDup_map_same {A B} (f : A -> B) (l : list A) (a b : A) :
  NoDup (map f l) -> In a l -> In b l -> f a = f b -> a = b.
Proof.
  induction l as [|x l IH]; simpl; [intros _ []|].
  intros Hnd Ha Hb Hf. apply NoDup_cons in Hnd as [Hx Hnd].
  destruct Ha as [<-|Ha], Hb as [<-|Hb]; auto.
  - exfalso. apply Hx. rewrite Hf. apply list_elem_of_In, in_map, Hb.
  - exfalso. apply Hx. rewrite <- Hf. apply list_elem_of_In, in_map, Ha.
Qed.

Lemma queryPoint_spec (idx : SpatialIndex) (timestamp vY : Q) (x : string) :
  In x (queryPoint idx timestamp vY) <->
  exists it, In it (tree idx) /\
             intersects (mkBBox timestamp vY timestamp vY) (item_box it) = true /\
             item_taskId it = x.
Proof.
  unfold queryPoint, search. rewrite in_map_iff. split.
  - intros (it & <- & Hin). apply filter_In in Hin as [Hin Hi]. eauto.
  - intros (it & Hin & Hi & <-). exists it. split; [reflexivity|].
    apply filter_In. auto.
Qed.

Lemma build_bounds_keep (rbr : gmap string VirtualRow) (ts : list Task)
    (m : gmap string BBox) (k : string) :
  (forall t, In t ts -> id t <> k) ->
  fold_left (fun m task =>
               match rbr !! resourceId task with
               | None => m
               | Some row => <[id task := taskBounds task row]> m
               end) ts m !! k = m !! k.
Proof.
  revert m. induction ts as [|t ts IH]; intros m Hne; simpl; [reflexivity|].
  rewrite IH by (intros t' Ht'; apply Hne; right; exact Ht').
  destruct (rbr !! resourceId t); [|reflexivity].
  apply lookup_insert_ne. apply Hne. left. reflexivity.
Qed.

Lemma build_bounds_lookup (rbr : gmap string VirtualRow) (ts : list Task)
    (task : Task) (row : VirtualRow) :
  In task ts -> NoDup (map id ts) -> rbr !! resourceId task = Some row ->
  build_bounds rbr ts !! id task = Some (taskBounds task row).
Proof.
  unfold build_bounds. generalize (∅ : gmap string BBox) as m.
  induction ts as [|t ts IH]; intros m Hin Hnd Hrow; [destruct Hin|].
  simpl in Hnd. apply NoDup_cons in Hnd as [Hx Hnd]. simpl.
  destruct Hin as [<-|Hin].
  - rewrite build_bounds_keep.
    + rewrite Hrow. apply lookup_insert_eq.
    + intros t' Ht' Heq. apply Hx. rewrite <- Heq. apply list_elem_of_In, in_map, Ht'.
  - apply IH; assumption.
Qed.

(** C6: after [rebuild ts rows] (task ids distinct, as in
    [Object.values(tasks)]), for every task whose resource maps to a row
    [row] (the last row carrying that resource), the recorded box is
    [startTime, _endTime] x [virtualY row, virtualY row + height];
    [queryPoint] at any point strictly inside that box returns the task's
    id, and at any point strictly outside it (left, right, above or below)
    returns a list without it. *)
Theorem queryPoint_box (ts : list Task) (rows : list VirtualRow)
    (task : Task) (row : VirtualRow) :
  In task ts -> NoDup (map id ts) ->
  rowByResource rows !! resourceId task = Some row ->
  let idx := rebuild ts rows in
  taskBoundsMap idx !! id task = Some (taskBounds task row) /\
  (forall t y, startTime task < t < _endTime task ->
               virtualY row < y < virtualY row + row_height row ->
               In (id task) (queryPoint idx t y)) /\
  (forall t y, (t < startTime task \/ _endTime task < t \/
                y < virtualY row \/ virtualY row + row_height row < y) ->
               ~ In (id task) (queryPoint idx t y)).
Proof.
  intros Hin Hnd Hrow idx. split; [|split].
  - apply build_bounds_lookup; assumption.
  - intros t y [Ht1 Ht2] [Hy1 Hy2]. apply queryPoint_spec.
    exists (mkItem (taskBounds task row) (id task)). split.
    + apply build_items_in; assumption.
    + split; [|reflexivity].
      unfold intersects, taskBounds; simpl.
      repeat rewrite andb_true_iff. rewrite !Qle_bool_iff.
      repeat split; apply Qlt_le_weak; assumption.
  - intros t y Hout Hq. apply queryPoint_spec in Hq as (it & Hit & Hi & Hid).
    destruct (build_items_origin _ _ _ Hit) as (t' & row' & Hin' & Hrow' & ->).
    simpl in Hid.
    assert (t' = task) as -> by (eapply NoDup_map_same; eauto).
    rewrite Hrow in Hrow'. injection Hrow' as <-.
    unfold intersects, taskBounds in Hi; simpl in Hi.
    repeat rewrite andb_true_iff in Hi. rewrite !Qle_bool_iff in Hi.
    destruct Hi as [[[H1 H2] H3] H4].
    destruct Hout as [H|[H|[H|H]]]; lra.
Qed.

Lemma queryPoint_box_witness :
  (In task140 [task140] /\ NoDup (map id [task140]) /\
   rowByResource [row1] !! resourceId task140 = Some row1) /\
  In (id task140) (queryPoint (rebuild [task140] [row1]) 1000 20).
Proof.
  assert (H1 : In task140 [task140]) by (left; reflexivity).
  assert (H2 : NoDup (map id [task140])) by (simpl; apply NoDup_singleton).
  assert (H3 : rowByResource [row1] !! resourceId task140 = Some row1) by reflexivity.
  split; [split; [exact H1 | split; [exact H2 | exact H3]] |].
  apply (proj1 (proj2 (queryPoint_box [task140] [row1] task140 row1 H1 H2 H3)));
    split; reflexivity.
Defined.

(** ** Dependency chains *)

Section DependencyChain.
Variable im : DependencyIndex.
Variable direction : Direction.
Variable origin : string.


Lemma concat_member (m : gmap string (list string)) (v w : string) :
  In w (default [] (m !! v)) -> In w (concat (map snd (map_to_list m))).
Proof.
  destruct (m !! v) as [l|] eqn:E; simpl; [|intros []].
  intros Hw. apply in_concat. exists l. split; [|exact Hw].
  apply (in_map snd _ (v, l)). apply list_elem_of_In, elem_of_map_to_list, E.
Qed.

Lemma length_le_concat (L : list (list string)) (l : list string) :
  In l L -> (length l <= length (concat L))%nat.
Proof.
  induction L as [|l' L IH]; simpl; [intros []|].
  rewrite length_app. intros [<-|H]; [lia|]. specialize (IH H). lia.
Qed.

Lemma concat_length (m : gmap string (list string)) (v : string) :
  (length (default [] (m !! v)) <= length (concat (map snd (map_to_list m))))%nat.
Proof.
  destruct (m !! v) as [l|] eqn:E; simpl; [|lia].
  apply length_le_concat. apply (in_map snd _ (v, l)).
  apply list_elem_of_In, elem_of_map_to_list, E.
Qed.

Lemma nextTasks_targets (v w : string) :
  In w (nextTasks im direction v) -> In w (adjacencyTargets im).
Proof.
  unfold nextTasks, adjacencyTargets, getPredecessors, getSuccessors.
  rewrite !in_app_iff. intros [H|H].
  - left. destruct (usesPredecessors direction); [|destruct H].
    eapply concat_member; exact H.
  - right. destruct (usesSuccessors direction); [|destruct H].
    eapply concat_member; exact H.
Qed.

Lemma nextTasks_length (v : string) : (length (nextTasks im direction v) <= (chainD im))%nat.
Proof.
  unfold nextTasks, chainD, adjacencyTargets, getPredecessors, getSuccessors.
  rewrite !length_app.
  pose proof (concat_length (predecessorIndex im) v).
  pose proof (concat_length (successorIndex im) v).
  destruct (usesPredecessors direction), (usesSuccessors direction); simpl; lia.
Qed.

Lemma filter_length_le' (f : string -> bool) (l : list string) :
  (length (List.filter f l) <= length l)%nat.
Proof. induction l as [|x l IH]; simpl; [lia|]. destruct (f x); simpl; lia. Qed.

Lemma NoDup_snoc' (V : list string) (c : string) :
  List.NoDup V -> ~ In c V -> List.NoDup (V ++ [c]).
Proof.
  induction V as [|x V IH]; simpl; intros Hnd Hc.
  - apply List.NoDup_cons; [intros [] | apply List.NoDup_nil].
  - apply NoDup_cons_iff in Hnd as [Hx Hnd]. apply List.NoDup_cons.
    + rewrite in_app_iff. intros [H|[H|[]]]; [contradiction|]. apply Hc. left. symmetry. exact H.
    + apply IH; [exact Hnd|]. intros H. apply Hc. right. exact H.
Qed.

Lemma chain_queue_step (visited : list string) (current : string) (rest : list string) :
  (if usesSuccessors direction
   then (if usesPredecessors direction
         then rest ++ List.filter (notVisited visited) (getPredecessors im current)
         else rest) ++ List.filter (notVisited visited) (getSuccessors im current)
   else if usesPredecessors direction
        then rest ++ List.filter (notVisited visited) (getPredecessors im current)
        else rest)
  = rest ++ List.filter (notVisited visited) (nextTasks im direction current).
Proof.
  unfold nextTasks. destruct direction; simpl;
    rewrite ?List.filter_app, ?app_nil_r, ?app_assoc; reflexivity.
Qed.

Lemma chain_loop_ok (fuel : nat) (visited queue : list string) :
  chainInv im direction origin visited queue -> (chainMeasure im origin visited queue < fuel)%nat ->
  exists r, chain_loop im direction fuel visited queue = Some r /\ chainInv im direction origin r [].
Proof.
  revert visited queue. induction fuel as [|fuel IH]; intros V Q Hinv Hm; [lia|].
  destruct Q as [|c rest]; simpl; [eexists; split; [reflexivity | exact Hinv]|].
  destruct Hinv as (Hnd & HV & HQ & Hr & Hcl & Ho).
  destruct (in_dec _ c V) as [Hc|Hc].
  - apply IH.
    + repeat split; try assumption.
      * intros x Hx; apply HQ; right; exact Hx.
      * intros x [Hx|Hx]; apply Hr; [left|right; right]; exact Hx.
      * intros v w Hv Hw. destruct (Hcl v w Hv Hw) as [H|[<-|H]]; auto.
      * destruct Ho as [H|[<-|H]]; auto.
    + unfold chainMeasure, chainU, chainD in *; simpl in *; lia.
  - rewrite chain_queue_step.
    set (V' := V ++ [c]).
    set (pushed := List.filter (notVisited V') (nextTasks im direction c)).
    assert (HcU : In c (chainU im origin)) by (apply HQ; left; reflexivity).
    assert (HndV' : List.NoDup V') by (apply NoDup_snoc'; assumption).
    assert (HV' : incl V' (chainU im origin)).
    { intros x Hx. apply in_app_iff in Hx as [Hx|[<-|[]]]; [apply HV, Hx | exact HcU]. }
    assert (Hlen : (length V' <= length (chainU im origin))%nat) by (apply NoDup_incl_length; assumption).
    assert (Hpush : (length pushed <= (chainD im))%nat).
    { pose proof (filter_length_le' (notVisited V') (nextTasks im direction c)).
      pose proof (nextTasks_length c). unfold pushed. lia. }
    apply IH.
    + repeat split.
      * exact HndV'.
      * exact HV'.
      * intros x Hx. apply in_app_iff in Hx as [Hx|Hx]; [apply HQ; right; exact Hx|].
        apply filter_In in Hx as [Hx _]. right. eapply nextTasks_targets; exact Hx.
      * intros x [Hx|Hx].
        -- apply in_app_iff in Hx as [Hx|[<-|[]]];
             apply Hr; [left; exact Hx | right; left; reflexivity].
        -- apply in_app_iff in Hx as [Hx|Hx]; [apply Hr; right; right; exact Hx|].
           apply filter_In in Hx as [Hx _].
           apply reach_step with c; [apply Hr; right; left; reflexivity | exact Hx].
      * intros v w Hv Hw. apply in_app_iff in Hv as [Hv|[<-|[]]].
        -- destruct (Hcl v w Hv Hw) as [H|[<-|H]].
           ++ left. apply in_app_iff. left. exact H.
           ++ left. apply in_app_iff. right. left. reflexivity.
           ++ right. apply in_app_iff. left. exact H.
        -- destruct (in_dec (fun a b : string => decide (a = b)) w V') as [H|H];
             [left; exact H|].
           right. apply in_app_iff. right. apply filter_In. split; [exact Hw|].
           unfold notVisited. destruct (in_dec _ w V'); [contradiction | reflexivity].
      * destruct Ho as [H|[<-|H]].
        -- left. apply in_app_iff. left. exact H.
        -- left. apply in_app_iff. right. left. reflexivity.
        -- right. apply in_app_iff. left. exact H.
    + unfold chainMeasure, chainU, chainD in *. rewrite length_app.
      fold pushed. unfold V' in Hlen |- *. rewrite length_app in Hlen |- *.
      unfold chainU, chainD in *. simpl in *.
      remember (length (adjacencyTargets im)) as d.
      remember (length V) as nv. remember (length rest) as nr.
      remember (length pushed) as np.
      assert (Hk : exists k, (S d - nv = S k)%nat /\ (S d - (nv + 1) = k)%nat)
        by (exists (S d - nv - 1)%nat; lia).
      destruct Hk as (k & Hk1 & Hk2). rewrite Hk1 in Hm. rewrite Hk2. nia.
Qed.

End DependencyChain.

(** C8: for any adjacency maps (cycles included), task id and direction,
    the traversal loop stops within [chainFuel] iterations (so the
    [while] loop terminates) and [getDependencyChain] returns a list
    without duplicates holding exactly the task ids other than [taskId]
    reachable from [taskId] by steps in the requested direction. *)
Theorem getDependencyChain_closure (im : DependencyIndex) (taskId : string)
    (direction : Direction) :
  exists r, getDependencyChain (chainFuel im taskId) im taskId direction = Some r /\
    List.NoDup r /\
    (forall x, In x r <-> x <> taskId /\ reachable im direction taskId x).
Proof.
  destruct (chain_loop_ok im direction taskId (chainFuel im taskId) [] [taskId])
    as (V & HV & Hnd & _ & _ & Hr & Hcl & Ho).
  - repeat split.
    + apply List.NoDup_nil.
    + intros x [].
    + intros x [<-|[]]. left. reflexivity.
    + intros x [[]|[<-|[]]]. constructor.
    + intros v w [].
    + right. left. reflexivity.
  - unfold chainMeasure, chainU, chainD, chainFuel. simpl. lia.
  - exists (List.filter (fun x => negb (String.eqb x taskId)) V).
    unfold getDependencyChain. rewrite HV. split; [reflexivity|]. split.
    + apply List.NoDup_filter, Hnd.
    + intros x. rewrite filter_In, negb_true_iff, String.eqb_neq. split.
      * intros [Hx Hne]. split; [exact Hne|]. apply Hr. left. exact Hx.
      * intros [Hne Hreach]. split; [|exact Hne].
        clear Hne. induction Hreach as [|y z Hy IHy Hz].
        -- destruct Ho as [H|[]]. exact H.
        -- destruct (Hcl y z IHy Hz) as [H|[]]. exact H.
Qed.

(** ** Committing a drag *)

Lemma Qfloor_eq (q : Q) (z : Z) :
  inject_Z z <= q -> q < inject_Z z + 1 -> Qfloor q = z.
Proof.
  intros H1 H2. pose proof (Qfloor_le q) as F1. pose proof (Qlt_floor q) as F2.
  assert (A : (Qfloor q < z + 1)%Z).
  { rewrite Zlt_Qlt. rewrite inject_Z_plus. apply Qle_lt_trans with q; assumption. }
  assert (B : (z < Qfloor q + 1)%Z).
  { rewrite Zlt_Qlt. apply Qle_lt_trans with q; assumption. }
  lia.
Qed.

Lemma Math_round_comp (a b : Q) : a == b -> Math_round a = Math_round b.
Proof. intros H. unfold Math_round. rewrite H. reflexivity. Qed.

Lemma Math_round_Z (z : Z) : Math_round (inject_Z z) = inject_Z z.
Proof. unfold Math_round. f_equal. apply Qfloor_eq; lra. Qed.




Lemma updateTask_lookup (taskId : string) (u : TaskUpdate) (data : DataState)
    (task : Task) :
  tasks data !! taskId = Some task ->
  is_Some (upd_startTime u) ->
  tasks (updateTask taskId u data) !! taskId =
    Some (let task1 := assign task u in
          let tot := calculateTotalDuration (phases task1) in
          with_derived task1 tot (startTime task1 + tot * 60 * 1000)).
Proof.
  intros Ht Hs. unfold updateTask, updateTask_tasks. simpl. rewrite Ht.
  rewrite (bool_decide_eq_true_2 (is_Some (upd_startTime u))) by exact Hs.
  simpl. apply lookup_insert_eq.
Qed.









Lemma commit_effect_resize (d : DragState) (data : DataState) (t : Task) (ns ne : Q) :
  isResize (dtype d) = true -> tasks data !! dtaskId d = Some t ->
  exists data' t', commit_effect d ns ne data = Some data' /\
    tasks data' !! dtaskId d = Some t' /\
    phases t' = scalePhases (phases t) (((ne - ns) / (60 * 1000)) / _totalDuration t).
Proof.
  intros Hr Ht. unfold commit_effect.
  destruct (dtype d); try discriminate Hr; rewrite Ht;
    (eexists; eexists; split; [reflexivity|];
     rewrite (updateTask_lookup _ _ _ t Ht) by (eexists; reflexivity);
     split; reflexivity).
Qed.

(** C2 (counterexample): in the combined store (day zoom, one-hour snap
    interval), shrinking the 140-minute task [20; 100; 20] to a 70-minute
    preview commits the snapped 60-minute span: [9; 43; 9]. *)
Lemma commitDrag_resize_snapped :
  let s1 := GanttStore.updateDrag (-35 # 3) 0
              (GanttStore.startDrag "t1" resize_end 0 0 (gs0 data140 day 30)) in
  match GanttStore.drag s1 with
  | Some d => previewEndTime d - previewStartTime d == 4200000
  | None => False
  end /\
  committedDurationsG (GanttStore.commitDrag s1) "t1" = Some (Some [9; 43; 9]).
Proof. split; vm_compute; reflexivity. Qed.

(** C2 (amended): a resize commit sets every phase duration to
    [Math.round(duration * scale)] with
    [scale = (newEnd - newStart) / 60000 / _totalDuration] of the task in
    the data store; [newStart], [newEnd] are the preview times in the UI
    store and the preview times snapped to the snap interval in the
    combined store.  So the 140-minute task [20; 100; 20] with a 70-minute
    preview becomes [10; 50; 10] in the UI store. *)
Theorem commitDrag_resize_scale :
  (forall (s : UIStore.UIState) (data : DataState) (d : DragState) (t : Task),
    UIStore.drag s = Some d -> dependencyViolations d = [] ->
    isResize (dtype d) = true -> tasks data !! dtaskId d = Some t ->
    ~ _totalDuration t == 0 ->
    exists data' t',
      UIStore.commitDrag s data = Some (UIStore.mkUIState (UIStore.viewport s) None, data') /\
      tasks data' !! dtaskId d = Some t' /\
      phases t' = scalePhases (phases t)
        (((previewEndTime d - previewStartTime d) / (60 * 1000)) / _totalDuration t)) /\
  (forall (s : GanttStore.GanttState) (d : DragState) (t : Task),
    let I := getSnapIntervalMs (zoomLevel (GanttStore.viewport s))
                               (GanttStore.minResolution s) in
    GanttStore.drag s = Some d -> dependencyViolations d = [] ->
    isResize (dtype d) = true -> tasks (GanttStore.data s) !! dtaskId d = Some t ->
    ~ _totalDuration t == 0 ->
    exists s' t', GanttStore.commitDrag s = Some s' /\
      tasks (GanttStore.data s') !! dtaskId d = Some t' /\
      phases t' = scalePhases (phases t)
        (((GanttStore.snap I (previewEndTime d) - GanttStore.snap I (previewStartTime d))
          / (60 * 1000)) / _totalDuration t)) /\
  committedDurations
    (UIStore.commitDrag (UIStore.updateDrag (-35 # 3) 0
       (UIStore.startDrag data140 "t1" resize_end 0 0 ui0)) data140) "t1"
  = Some (Some [10; 50; 10]).
Proof.
  split; [|split].
  - intros s data d t Hd Hv Hr Ht _.
    destruct (commit_effect_resize d data t (previewStartTime d) (previewEndTime d) Hr Ht)
      as (data' & t' & Hce & Hl & Hp).
    exists data', t'. unfold UIStore.commitDrag. rewrite Hd, Hv. simpl.
    rewrite Hce. split; [reflexivity | split; assumption].
  - intros s d t I Hd Hv Hr Ht _.
    destruct (commit_effect_resize d (GanttStore.data s) t
                (GanttStore.snap I (previewStartTime d))
                (GanttStore.snap I (previewEndTime d)) Hr Ht)
      as (data' & t' & Hce & Hl & Hp).
    unfold GanttStore.commitDrag. rewrite Hd, Hv. simpl. fold I. rewrite Hce.
    eexists; exists t'. split; [reflexivity | split; assumption].
  - vm_compute. reflexivity.
Qed.

Lemma commitDrag_resize_scale_witness :
  let s1 := UIStore.updateDrag (-35 # 3) 0 (UIStore.startDrag data140 "t1" resize_end 0 0 ui0) in
  let d1 := updateDrag_body vp0 (15 * 60 * 1000) (-35 # 3) 0
              (newDrag resize_end "t1" task140 0 0) in
  let g1 := GanttStore.updateDrag (-35 # 3) 0
              (GanttStore.startDrag "t1" resize_end 0 0 (gs0 data140 day 30)) in
  let d2 := updateDrag_body (GanttStore.viewport (gs0 data140 day 30)) (30 * 60 * 1000)
              (-35 # 3) 0 (newDrag resize_end "t1" task140 0 0) in
  let I := getSnapIntervalMs day 30 in
  (exists data' t',
     UIStore.commitDrag s1 data140 = Some (UIStore.mkUIState vp0 None, data') /\
     tasks data' !! "t1" = Some t' /\
     phases t' = scalePhases (phases task140)
       (((previewEndTime d1 - previewStartTime d1) / (60 * 1000)) / _totalDuration task140)) /\
  (exists s' t',
     GanttStore.commitDrag g1 = Some s' /\
     tasks (GanttStore.data s') !! "t1" = Some t' /\
     phases t' = scalePhases (phases task140)
       (((GanttStore.snap I (previewEndTime d2) - GanttStore.snap I (previewStartTime d2))
         / (60 * 1000)) / _totalDuration task140)).
Proof.
  intros s1 d1 g1 d2 I. split.
  - apply (proj1 commitDrag_resize_scale s1 data140 d1 task140); try reflexivity.
    vm_compute. intros H. discriminate H.
  - apply (proj1 (proj2 commitDrag_resize_scale) g1 d2 task140); try reflexivity.
    vm_compute. intros H. discriminate H.
Defined.

(** * Further properties of the code *)

(** ** Phase ranges and overlaps ([utils/task-utils.ts]) *)

Lemma calc_acc (ps : list TaskPhase) (a : Q) :
  fold_left (fun sum phase => sum + duration phase) ps a == a + calculateTotalDuration ps.
Proof.
  unfold calculateTotalDuration. revert a.
  induction ps as [|p ps IH]; intros a; simpl; [ring|].
  rewrite (IH (a + duration p)), (IH (0 + duration p)). ring.
Qed.

Lemma calc_cons (p : TaskPhase) (ps : list TaskPhase) :
  calculateTotalDuration (p :: ps) == duration p + calculateTotalDuration ps.
Proof. unfold calculateTotalDuration at 1. simpl. rewrite calc_acc. ring. Qed.

Lemma phaseRanges_length (cur : Q) (ps : list TaskPhase) :
  length (phaseRanges_from cur ps) = length ps.
Proof. revert cur. induction ps; intros cur; simpl; [|rewrite IHps]; reflexivity. Qed.

Lemma phaseRanges_nth (ps : list TaskPhase) (cur : Q) (i : nat) (p : TaskPhase) :
  nth_error ps i = Some p ->
  exists r, nth_error (phaseRanges_from cur ps) i = Some r /\
    range_type r = ptype p /\ range_color r = pcolor p /\
    range_start r == cur + calculateTotalDuration (firstn i ps) * 60000 /\
    range_end r == range_start r + duration p * 60000.
Proof.
  revert cur i. induction ps as [|q ps IH]; intros cur [|i] H; try discriminate H.
  - simpl in H. injection H as <-. eexists. split; [reflexivity|].
    simpl. repeat split; try reflexivity; unfold calculateTotalDuration; simpl; ring.
  - simpl in H. destruct (IH (cur + duration q * 60 * 1000) i H)
      as (r & Hr & H1 & H2 & H3 & H4).
    exists r. simpl. split; [exact Hr|]. repeat split; try assumption.
    rewrite H3, calc_cons. ring.
Qed.

Lemma phaseRanges_last (ps : list TaskPhase) (cur : Q) (r : PhaseRange) :
  last (phaseRanges_from cur ps) = Some r ->
  range_end r == cur + calculateTotalDuration ps * 60000.
Proof.
  revert cur. induction ps as [|p ps IH]; intros cur H; [discriminate H|].
  destruct ps as [|p' ps'].
  - simpl in H. injection H as <-. simpl.
    unfold calculateTotalDuration. simpl. ring.
  - change (last (phaseRanges_from (cur + duration p * 60 * 1000) (p' :: ps')) = Some r) in H.
    rewrite (IH _ H), (calc_cons p). ring.
Qed.

(** [getPhaseRanges] returns one range per phase, with the phase's type
    and color; range [i] starts after the first [i] phases and lasts the
    phase's duration, so the ranges follow each other without gaps; for a
    task whose derived fields are consistent, the last range ends at
    [_endTime]. *)
Theorem getPhaseRanges_contiguous (task : Task) :
  length (getPhaseRanges task) = length (phases task) /\
  (forall i p, nth_error (phases task) i = Some p ->
     exists r, nth_error (getPhaseRanges task) i = Some r /\
       range_type r = ptype p /\ range_color r = pcolor p /\
       range_start r == startTime task
                        + calculateTotalDuration (firstn i (phases task)) * 60000 /\
       range_end r == range_start r + duration p * 60000) /\
  (taskConsistent task -> forall r, last (getPhaseRanges task) = Some r ->
     range_end r == _endTime task /\ range_end r == calculateEndTime (startTime task) (phases task)).
Proof.
  split; [apply phaseRanges_length|]. split; [intros; apply phaseRanges_nth; assumption|].
  intros [Ht He] r Hr. apply phaseRanges_last in Hr.
  unfold calculateEndTime. split; [|rewrite Hr; ring].
  rewrite Hr, He, Ht. ring.
Qed.

Lemma getPhaseRanges_contiguous_witness :
  exists r, last (getPhaseRanges task140) = Some r /\ range_end r == _endTime task140.
Proof.
  eexists. split; [vm_compute; reflexivity|].
  apply (proj2 (proj2 (getPhaseRanges_contiguous task140))).
  - split; vm_compute; reflexivity.
  - vm_compute; reflexivity.
Defined.

Lemma JS_lt_spec (a b : Q) : JS_lt a b = true <-> a < b.
Proof.
  unfold JS_lt. rewrite negb_true_iff. split.
  - intros H. apply Qnot_le_lt. intros H'. apply Qle_bool_iff in H'. congruence.
  - intros H. destruct (Qle_bool b a) eqn:E; [|reflexivity].
    apply Qle_bool_iff in E. lra.
Qed.

(** [tasksOverlap] is symmetric and is [taskOverlapsRange] on the other
    task's span; a task overlaps itself exactly when it ends after it
    starts; a task that ends where another starts does not overlap it. *)
Theorem tasksOverlap_props (a b : Task) :
  tasksOverlap a b = tasksOverlap b a /\
  tasksOverlap a b = taskOverlapsRange a (startTime b) (_endTime b) /\
  (tasksOverlap a a = true <-> startTime a < _endTime a) /\
  (_endTime a == startTime b -> tasksOverlap a b = false).
Proof.
  unfold tasksOverlap, taskOverlapsRange. split; [apply andb_comm|].
  split; [reflexivity|]. split.
  - rewrite andb_diag. apply JS_lt_spec.
  - intros H. destruct (JS_lt (startTime a) (_endTime b)) eqn:E1; [|reflexivity].
    destruct (JS_lt (startTime b) (_endTime a)) eqn:E2; [|reflexivity].
    apply JS_lt_spec in E2. exfalso. lra.
Qed.

Lemma tasksOverlap_props_witness :
  tasksOverlap task140 (hydrateTask (mkStoredTask "t2" 8400000 phases140 "r1" "o1" None)) = false.
Proof. apply (proj2 (proj2 (proj2 (tasksOverlap_props _ _)))). vm_compute. reflexivity. Defined.

(** ** Snapping *)

Lemma Math_round_bounds (x : Q) : x - (1 # 2) < Math_round x /\ Math_round x <= x + (1 # 2).
Proof.
  unfold Math_round. pose proof (Qfloor_le (x + (1 # 2))).
  pose proof (Qlt_floor (x + (1 # 2))). rewrite inject_Z_plus in *.
  assert (inject_Z 1 == 1) by reflexivity. split; lra.
Qed.

Lemma Math_round_mono (x y : Q) : x <= y -> Math_round x <= Math_round y.
Proof.
  intros H. unfold Math_round. rewrite <- Zle_Qle. apply Qfloor_resp_le. lra.
Qed.

Lemma Math_round_plus1 (x : Q) : Math_round (x + 1) == Math_round x + 1.
Proof.
  unfold Math_round.
  rewrite (Qfloor_eq (x + 1 + (1 # 2)) (Qfloor (x + (1 # 2)) + 1)).
  - rewrite inject_Z_plus. reflexivity.
  - pose proof (Qfloor_le (x + (1 # 2))). rewrite inject_Z_plus.
    assert (inject_Z 1 == 1) by reflexivity. lra.
  - pose proof (Qlt_floor (x + (1 # 2))). rewrite inject_Z_plus in *.
    assert (inject_Z 1 == 1) by reflexivity. lra.
Qed.

Lemma Math_round_is_Z (x : Q) : exists k, Math_round x = inject_Z k.
Proof. exists (Qfloor (x + (1 # 2))). reflexivity. Qed.

(** For a positive interval, [snapToInterval] returns a multiple of the
    interval within half an interval of the timestamp (ties rounding up),
    is idempotent and monotone, and moves two timestamps at least an
    interval apart to multiples at least an interval apart. *)
Theorem snapToInterval_props (intervalMinutes : Q) (t t' : Q) :
  0 < intervalMinutes ->
  let I := intervalMinutes * 60 * 1000 in
  (exists k, snapToInterval t intervalMinutes == inject_Z k * I) /\
  t - I / 2 < snapToInterval t intervalMinutes /\
  snapToInterval t intervalMinutes <= t + I / 2 /\
  snapToInterval (snapToInterval t intervalMinutes) intervalMinutes
    == snapToInterval t intervalMinutes /\
  (t <= t' -> snapToInterval t intervalMinutes <= snapToInterval t' intervalMinutes) /\
  (t + I <= t' -> snapToInterval t intervalMinutes + I <= snapToInterval t' intervalMinutes).
Proof.
  intros Hm I.
  assert (HI : 0 < I) by (unfold I; lra).
  assert (Hs : forall x, snapToInterval x intervalMinutes = Math_round (x / I) * I)
    by reflexivity.
  assert (Hdiv : forall x, x / I * I == x) by (intros x; field; lra).
  destruct (Math_round_is_Z (t / I)) as [k Hk].
  split; [exists k; rewrite Hs, Hk; reflexivity|].
  pose proof (Math_round_bounds (t / I)) as [B1 B2].
  assert (Hlo : (t / I - (1 # 2)) * I < Math_round (t / I) * I)
    by (apply Qmult_lt_r; assumption).
  assert (Hhi : Math_round (t / I) * I <= (t / I + (1 # 2)) * I)
    by (apply Qmult_le_compat_r; lra).
  assert (E1 : (t / I - (1 # 2)) * I == t - I / 2) by (field; lra).
  assert (E2 : (t / I + (1 # 2)) * I == t + I / 2) by (field; lra).
  rewrite Hs. split; [rewrite <- E1; exact Hlo|]. split; [rewrite <- E2; exact Hhi|].
  split; [|split].
  - rewrite Hs, Hk.
    rewrite (Math_round_comp _ (inject_Z k)) by (field; lra).
    rewrite Math_round_Z. reflexivity.
  - intros Ht. rewrite Hs. apply Qmult_le_compat_r; [|lra].
    apply Math_round_mono. apply Qmult_le_compat_r; [exact Ht|].
    apply Qlt_le_weak, Qinv_lt_0_compat, HI.
  - intros Ht. rewrite Hs.
    assert (Hmono : Math_round (t / I + 1) <= Math_round (t' / I)).
    { rewrite (Math_round_comp (t / I + 1) ((t + I) / I)) by (field; lra).
      apply Math_round_mono.
      apply Qmult_le_compat_r; [exact Ht|].
      apply Qlt_le_weak, Qinv_lt_0_compat, HI. }
    rewrite Math_round_plus1 in Hmono.
    assert (Math_round (t / I) * I + I == (Math_round (t / I) + 1) * I) by ring.
    assert ((Math_round (t / I) + 1) * I <= Math_round (t' / I) * I)
      by (apply Qmult_le_compat_r; lra).
    lra.
Qed.

Lemma snapToInterval_props_witness :
  snapToInterval (snapToInterval 600000 60) 60 == snapToInterval 600000 60.
Proof.
  exact (proj1 (proj2 (proj2 (proj2 (snapToInterval_props 60 600000 600000 eq_refl))))).
Defined.


(** ** Viewport transforms ([ViewportManager]) *)

Lemma timeToX_diff (v : ViewportState) (a b : Q) :
  timeToX v b - timeToX v a == (b - a) * (pixelsPerHour v / MS_PER_HOUR).
Proof. unfold timeToX, MS_PER_HOUR. field. Qed.

Lemma timeToX_lt (v : ViewportState) (a b : Q) :
  0 < pixelsPerHour v -> (timeToX v a < timeToX v b <-> a < b).
Proof.
  intros Hp. pose proof (timeToX_diff v a b) as Hd.
  assert (Hc : 0 < pixelsPerHour v / MS_PER_HOUR).
  { unfold MS_PER_HOUR, Qdiv. apply Qmult_lt_0_compat; [exact Hp|reflexivity]. }
  pose proof (Qmult_lt_r 0 (b - a) _ Hc) as Hm.
  assert (H0 : 0 * (pixelsPerHour v / MS_PER_HOUR) == 0) by ring.
  split; intros H.
  - assert (0 * (pixelsPerHour v / MS_PER_HOUR) < (b - a) * (pixelsPerHour v / MS_PER_HOUR))
      by lra.
    apply Hm in H1. lra.
  - assert (0 < b - a) by lra. apply Hm in H1. lra.
Qed.

Lemma timeToX_xToTime (v : ViewportState) (x : Q) :
  ~ pixelsPerHour v == 0 -> timeToX v (xToTime v x) == x.
Proof. intros Hp. unfold timeToX, xToTime, MS_PER_HOUR. field. exact Hp. Qed.

Lemma lt_xToTime (v : ViewportState) (t x : Q) :
  0 < pixelsPerHour v ->
  (t < xToTime v x <-> timeToX v t < x) /\ (xToTime v x < t <-> x < timeToX v t).
Proof.
  intros Hp. assert (Hn : ~ pixelsPerHour v == 0) by (intros H; lra).
  pose proof (timeToX_xToTime v x Hn) as Hx.
  split.
  - rewrite <- (timeToX_lt v t (xToTime v x) Hp). rewrite Hx. reflexivity.
  - rewrite <- (timeToX_lt v (xToTime v x) t Hp). rewrite Hx. reflexivity.
Qed.

(** With a positive zoom, [isTimeRangeVisible] holds exactly when the
    range's pixel span [timeToX start, timeToX end] meets the open canvas
    span (0, width), and [isYRangeVisible] exactly when the rows' screen
    span meets (0, height); [isVisible] is both. *)
Theorem isVisible_pixels (v : ViewportState) (s e minY' maxY' : Q) :
  0 < pixelsPerHour v ->
  (isTimeRangeVisible v s e = true <-> timeToX v s < width v /\ 0 < timeToX v e) /\
  (isYRangeVisible v minY' maxY' = true <->
     virtualYToY v minY' < height v /\ 0 < virtualYToY v maxY') /\
  (isVisible v s e minY' maxY' = true <->
     (timeToX v s < width v /\ 0 < timeToX v e) /\
     (virtualYToY v minY' < height v /\ 0 < virtualYToY v maxY')).
Proof.
  intros Hp.
  assert (HT : isTimeRangeVisible v s e = true <-> timeToX v s < width v /\ 0 < timeToX v e).
  { unfold isTimeRangeVisible, getVisibleTimeRange.
    rewrite andb_true_iff, !JS_lt_spec.
    rewrite (proj1 (lt_xToTime v s (width v) Hp)), (proj2 (lt_xToTime v e 0 Hp)).
    reflexivity. }
  assert (HY : isYRangeVisible v minY' maxY' = true <->
               virtualYToY v minY' < height v /\ 0 < virtualYToY v maxY').
  { unfold isYRangeVisible, getVisibleYRange, virtualYToY.
    rewrite andb_true_iff, !JS_lt_spec. split; intros [H1 H2]; split; lra. }
  split; [exact HT|]. split; [exact HY|].
  unfold isVisible. rewrite andb_true_iff, HT, HY. reflexivity.
Qed.

Lemma isVisible_pixels_witness :
  isTimeRangeVisible vp0 (startTime task140) (_endTime task140) = true <->
  timeToX vp0 (startTime task140) < width vp0 /\ 0 < timeToX vp0 (_endTime task140).
Proof. exact (proj1 (isVisible_pixels vp0 _ _ 0 0 eq_refl)). Defined.

(** [timeToX] is affine with slope [durationToWidth]; [durationToWidth]
    and [widthToDuration] are inverse (for a non-zero zoom), so the visible
    time range spans [widthToDuration width]. *)
Theorem viewport_scale (v : ViewportState) (a b d w : Q) :
  ~ pixelsPerHour v == 0 ->
  timeToX v b - timeToX v a == durationToWidth v (b - a) /\
  widthToDuration v (durationToWidth v d) == d /\
  durationToWidth v (widthToDuration v w) == w /\
  snd (getVisibleTimeRange v) - fst (getVisibleTimeRange v) == widthToDuration v (width v).
Proof.
  intros Hp. unfold durationToWidth, widthToDuration, getVisibleTimeRange, xToTime.
  simpl. rewrite timeToX_diff. unfold MS_PER_HOUR.
  repeat split; field; exact Hp.
Qed.

Lemma viewport_scale_witness :
  widthToDuration vp0 (durationToWidth vp0 3600000) == 3600000.
Proof. exact (proj1 (proj2 (viewport_scale vp0 0 0 3600000 0 ltac:(discriminate)))). Defined.

(** With the zoom [calculateZoomToFit start end padding] (for a
    non-empty range), the range is exactly as wide as the canvas minus
    the padding on both sides. *)
Theorem calculateZoomToFit_fits (v : ViewportState) (s e padding : Q) :
  ~ e == s ->
  let v' := with_viewport v (scrollX v) (calculateZoomToFit v s e padding)
                          (scrollY v) (zoomLevel v) in
  durationToWidth v' (e - s) == width v - 2 * padding.
Proof.
  intros He v'. unfold v', durationToWidth, with_viewport; cbn [pixelsPerHour].
  unfold calculateZoomToFit, MS_PER_HOUR. field. intros H. apply He. lra.
Qed.

Lemma calculateZoomToFit_fits_witness :
  durationToWidth (with_viewport vp0 0 (calculateZoomToFit vp0 0 8400000 50) 0 day)
    (8400000 - 0) == width vp0 - 2 * 50.
Proof. exact (calculateZoomToFit_fits vp0 0 8400000 50 ltac:(discriminate)). Defined.

(** [screenToData] is [null] until the canvas rectangle is known; once it
    is, the screen point of a data point (its viewport point shifted by
    the rectangle's corner) is mapped back to that data point. *)
Theorem screenToData_roundtrip (vm : ViewportManager) (t vY : Q) :
  (canvasRect vm = None -> forall sx sy, screenToData vm sx sy = None) /\
  (forall r, canvasRect vm = Some r -> ~ pixelsPerHour (vm_viewport vm) == 0 ->
     exists t' vY',
       screenToData vm (rect_left r + fst (dataToViewport (vm_viewport vm) t vY))
                       (rect_top r + snd (dataToViewport (vm_viewport vm) t vY))
       = Some (t', vY') /\ t' == t /\ vY' == vY).
Proof.
  split.
  - intros H sx sy. unfold screenToData, screenToViewport. rewrite H. reflexivity.
  - intros r H Hp. unfold screenToData, screenToViewport. rewrite H.
    eexists; eexists; split; [reflexivity|].
    unfold viewportToData, dataToViewport, xToTime, yToVirtualY, virtualYToY, timeToX,
      MS_PER_HOUR; simpl. split; field; exact Hp.
Qed.

Lemma screenToData_roundtrip_witness :
  exists t' vY',
    screenToData (mkViewportManager vp0 (Some (mkRect 20 30)))
      (20 + fst (dataToViewport vp0 3600000 80)) (30 + snd (dataToViewport vp0 3600000 80))
    = Some (t', vY') /\ t' == 3600000 /\ vY' == 80.
Proof.
  exact (proj2 (screenToData_roundtrip (mkViewportManager vp0 (Some (mkRect 20 30))) 3600000 80)
           (mkRect 20 30) eq_refl ltac:(discriminate)).
Defined.

(** [scrollToTime t] puts [t] at the middle of the canvas without touching
    the zoom ([scrollX] is not clamped, so it is negative for a time less
    than half a canvas after the origin); [scrollToRow i] puts the top of
    row [i] (at [i * rowHeight]) at the top edge. *)
Theorem scrollTo_positions (v : ViewportState) (t i : Q) :
  timeToX (scrollToTime t v) t == width v / 2 /\
  pixelsPerHour (scrollToTime t v) = pixelsPerHour v /\
  zoomLevel (scrollToTime t v) = zoomLevel v /\
  (scrollX (scrollToTime t v) < 0 <->
     timeToX (with_viewport v 0 (pixelsPerHour v) (scrollY v) (zoomLevel v)) t < width v / 2) /\
  virtualYToY (scrollToRow i v) (i * rowHeight v) == 0.
Proof.
  unfold scrollToTime, scrollToRow, timeToX, virtualYToY, with_viewport, MS_PER_HOUR; simpl.
  split; [field|]. split; [reflexivity|]. split; [reflexivity|].
  split; [split; intros H; lra | ring].
Qed.

(** [zoomLevel] agrees with [getZoomLevel pixelsPerHour] after every
    action that sets the zoom ([zoomViewport], [setZoomLevel], and
    [setViewport] with a [pixelsPerHour]), and the agreement is kept by
    the actions that leave the zoom alone ([panViewport], [scrollToTime],
    [scrollToRow], and [setViewport] with neither [pixelsPerHour] nor
    [zoomLevel]).  A [setViewport] that sets only [zoomLevel] can break it. *)
Theorem zoomLevel_consistent (v : ViewportState) :
  (forall f c, zoomLevel (zoomViewport f c v) = getZoomLevel (pixelsPerHour (zoomViewport f c v))) /\
  (forall l, zoomLevel (setZoomLevel l v) = getZoomLevel (pixelsPerHour (setZoomLevel l v))) /\
  (forall u p, vu_pixelsPerHour u = Some p ->
     zoomLevel (setViewport u v) = getZoomLevel (pixelsPerHour (setViewport u v))) /\
  (zoomLevel v = getZoomLevel (pixelsPerHour v) ->
     (forall dx dy, zoomLevel (panViewport dx dy v) = getZoomLevel (pixelsPerHour (panViewport dx dy v))) /\
     (forall t, zoomLevel (scrollToTime t v) = getZoomLevel (pixelsPerHour (scrollToTime t v))) /\
     (forall i, zoomLevel (scrollToRow i v) = getZoomLevel (pixelsPerHour (scrollToRow i v))) /\
     (forall u, vu_pixelsPerHour u = None -> vu_zoomLevel u = None ->
        zoomLevel (setViewport u v) = getZoomLevel (pixelsPerHour (setViewport u v)))) /\
  (exists u, zoomLevel (setViewport u v) <> getZoomLevel (pixelsPerHour (setViewport u v))).
Proof.
  split; [reflexivity|]. split; [intros []; reflexivity|].
  split; [intros u p Hp; unfold setViewport; rewrite Hp; reflexivity|].
  split.
  - intros H. split; [intros; exact H|]. split; [intros; exact H|].
    split; [intros; exact H|].
    intros u Hp Hz. unfold setViewport. rewrite Hp, Hz. exact H.
  - destruct (getZoomLevel (pixelsPerHour v)) eqn:E;
      [exists (mkViewportUpdate None None None None None None None (Some day))
      |exists (mkViewportUpdate None None None None None None None (Some hour))
      |exists (mkViewportUpdate None None None None None None None (Some hour))
      |exists (mkViewportUpdate None None None None None None None (Some hour))];
      unfold setViewport; simpl; rewrite E; discriminate.
Qed.

Lemma zoomLevel_consistent_witness :
  zoomLevel (setViewport (mkViewportUpdate None None (Some 3) None None None None None) vp0)
  = getZoomLevel (pixelsPerHour (setViewport (mkViewportUpdate None None (Some 3) None None None None None) vp0)).
Proof.
  exact (proj1 (proj2 (proj2 (zoomLevel_consistent vp0)))
           (mkViewportUpdate None None (Some 3) None None None None None) 3 eq_refl).
Defined.

(** [setSidebarWidth] keeps the width inside [100, 400], leaves a width
    already inside unchanged, and is monotone. *)
Theorem setSidebarWidth_clamp (w w' : Q) :
  100 <= setSidebarWidth w <= 400 /\
  (100 <= w <= 400 -> setSidebarWidth w == w) /\
  (w <= w' -> setSidebarWidth w <= setSidebarWidth w').
Proof.
  unfold setSidebarWidth, Math_max, Math_min.
  split; [|split].
  - split; [apply Q.le_max_l|]. apply Q.max_lub; [discriminate|apply Q.le_min_l].
  - intros [H1 H2]. rewrite Q.min_r by exact H2. rewrite Q.max_r by exact H1. reflexivity.
  - intros H. apply Q.max_le_compat_l. apply Q.min_le_compat_l. exact H.
Qed.

(** [selectTask]: "replace" leaves exactly the task selected, "add" adds it
    to the selection, "toggle" flips its membership and leaves every other
    task's; toggling the same task twice gives back the original selection.
    Every mode records the task as the last selected one and leaves the
    resource selection unchanged. *)
Theorem selectTask_modes (taskId : string) (s : SelectionState) :
  sel_taskIds (selectTask taskId sel_replace s) = {[ taskId ]} /\
  sel_taskIds (selectTask taskId sel_add s) = {[ taskId ]} ∪ sel_taskIds s /\
  (taskId ∈ sel_taskIds (selectTask taskId sel_toggle s) <-> taskId ∉ sel_taskIds s) /\
  (forall x, x <> taskId ->
     (x ∈ sel_taskIds (selectTask taskId sel_toggle s) <-> x ∈ sel_taskIds s)) /\
  sel_taskIds (selectTask taskId sel_toggle (selectTask taskId sel_toggle s)) = sel_taskIds s /\
  (forall mode, lastSelectedTaskId (selectTask taskId mode s) = Some taskId /\
                sel_resourceIds (selectTask taskId mode s) = sel_resourceIds s).
Proof.
  unfold selectTask; simpl.
  split; [reflexivity|]. split; [reflexivity|].
  split; [|split; [|split]].
  - destruct (decide (taskId ∈ sel_taskIds s)); set_solver.
  - intros x Hx. destruct (decide (taskId ∈ sel_taskIds s)); set_solver.
  - destruct (decide (taskId ∈ sel_taskIds s)) as [H|H]; simpl.
    + rewrite decide_False by set_solver. apply leibniz_equiv.
      intros x. destruct (decide (x = taskId)); set_solver.
    + rewrite decide_True by set_solver. apply leibniz_equiv. set_solver.
  - intros []; split; reflexivity.
Qed.

(** [selectTasks]: a task is selected afterwards iff it is in the list (or,
    in "add" mode, was selected before); the last selected task becomes the
    list's last element, and an empty list keeps the previous one. *)
Theorem selectTasks_spec (taskIds : list string) (replaceMode : bool)
    (s : SelectionState) (x : string) :
  (x ∈ sel_taskIds (selectTasks taskIds replaceMode s) <->
     In x taskIds \/ (replaceMode = false /\ x ∈ sel_taskIds s)) /\
  lastSelectedTaskId (selectTasks taskIds replaceMode s) =
    match last taskIds with Some y => Some y | None => lastSelectedTaskId s end /\
  (taskIds = [] -> lastSelectedTaskId (selectTasks taskIds replaceMode s) = lastSelectedTaskId s).
Proof.
  unfold selectTasks; simpl. split; [|split; [reflexivity|intros ->; reflexivity]].
  rewrite <- list_elem_of_In.
  destruct replaceMode; simpl.
  - rewrite elem_of_list_to_set. intuition congruence.
  - rewrite elem_of_union, elem_of_list_to_set. intuition.
Qed.

(** [setGroupingMode] collapses every group; [toggleGroup] flips one
    group's expansion, leaves the others and the mode alone, and undoes
    itself when applied twice. *)
Theorem grouping_actions (g : GroupingState) (mode : GroupingMode) (groupId x : string) :
  expandedGroups (setGroupingMode mode g) = ∅ /\
  grouping_mode (setGroupingMode mode g) = mode /\
  (groupId ∈ expandedGroups (toggleGroup groupId g) <-> groupId ∉ expandedGroups g) /\
  (x <> groupId -> (x ∈ expandedGroups (toggleGroup groupId g) <-> x ∈ expandedGroups g)) /\
  grouping_mode (toggleGroup groupId g) = grouping_mode g /\
  toggleGroup groupId (toggleGroup groupId g) = g.
Proof.
  unfold setGroupingMode, toggleGroup; simpl.
  split; [reflexivity|]. split; [reflexivity|].
  split; [|split; [|split; [reflexivity|]]].
  - destruct (decide (groupId ∈ expandedGroups g)); set_solver.
  - intros Hx. destruct (decide (groupId ∈ expandedGroups g)); set_solver.
  - destruct g as [m eg]; simpl. f_equal.
    destruct (decide (groupId ∈ eg)) as [H|H]; simpl.
    + rewrite decide_False by set_solver. apply leibniz_equiv.
      intros y. destruct (decide (y = groupId)); set_solver.
    + rewrite decide_True by set_solver. apply leibniz_equiv. set_solver.
Qed.

(** [deleteTask] removes the task and every dependency that names it as
    predecessor or successor; every other task, every other dependency and
    the resources are kept. *)
Theorem deleteTask_effect (taskId k : string) (d : TaskDependency) (s : DataState) :
  tasks (deleteTask taskId s) !! taskId = None /\
  (k <> taskId -> tasks (deleteTask taskId s) !! k = tasks s !! k) /\
  (dependencies (deleteTask taskId s) !! k = Some d <->
     dependencies s !! k = Some d /\ predecessorId d <> taskId /\ successorId d <> taskId) /\
  resources (deleteTask taskId s) = resources s.
Proof.
  unfold deleteTask; simpl. split; [apply lookup_delete_eq|].
  split; [intros Hk; apply lookup_delete_ne; congruence|].
  split; [|reflexivity].
  rewrite map_lookup_filter_Some. simpl. intuition.
Qed.

Lemma moveTask_one_lookup (dt : Q) (r : option string) (m : gmap string Task) (x k : string) :
  moveTask_one dt r m x !! k = if decide (x = k) then move_at dt r (m !! k) else m !! k.
Proof.
  unfold moveTask_one, move_at. destruct (decide (x = k)) as [<-|Hne].
  - destruct (m !! x) as [t|] eqn:E; [|exact E].
    destruct (isFixedTime t); [exact E|]. apply lookup_insert_eq.
  - destruct (m !! x) as [t|]; [|reflexivity].
    destruct (isFixedTime t); [reflexivity|]. apply lookup_insert_ne. exact Hne.
Qed.

Lemma moveTasks_fold_lookup (dt : Q) (r : option string) (ids : list string) :
  forall (m : gmap string Task) (k : string),
  fold_left (moveTask_one dt r) ids m !! k =
    Nat.iter (count_occ (fun a b : string => decide (a = b)) ids k) (move_at dt r) (m !! k).
Proof.
  induction ids as [|x ids IH]; intros m k; [reflexivity|].
  simpl. rewrite IH, moveTask_one_lookup.
  destruct (decide (x = k)) as [<-|Hne].
  - symmetry. apply Nat.iter_succ_r.
  - reflexivity.
Qed.

Lemma move_at_fixed (dt : Q) (r : option string) (t : Task) (n : nat) :
  isFixedTime t = true -> Nat.iter n (move_at dt r) (Some t) = Some t.
Proof.
  intros H. induction n as [|n IH]; [reflexivity|]. simpl. rewrite IH. simpl. rewrite H. reflexivity.
Qed.

Lemma move_at_none (dt : Q) (r : option string) (n : nat) :
  Nat.iter n (move_at dt r) None = None.
Proof. induction n as [|n IH]; [reflexivity|]. simpl. rewrite IH. reflexivity. Qed.

Lemma move_at_unfixed (dt : Q) (r : option string) (t : Task) (n : nat) :
  isFixedTime t = false -> (0 < n)%nat ->
  exists t', Nat.iter n (move_at dt r) (Some t) = Some t' /\
    startTime t' == startTime t + inject_Z (Z.of_nat n) * dt /\
    _endTime t' == startTime t' + _totalDuration t * 60 * 1000 /\
    phases t' = phases t /\ _totalDuration t' = _totalDuration t /\
    id t' = id t /\ orderId t' = orderId t /\ constraints t' = constraints t /\
    resourceId t' = default (resourceId t) r /\ isFixedTime t' = false.
Proof.
  intros Hf Hn. induction n as [|n IH]; [lia|].
  destruct n as [|n].
  - simpl. rewrite Hf. eexists; split; [reflexivity|]. unfold moved_task; simpl.
    split; [assert (inject_Z 1 == 1) as E by reflexivity; rewrite E; ring|].
    split; [reflexivity|]. repeat split; try reflexivity. exact Hf.
  - destruct IH as (t' & E & Hs & He & Hp & Ht & Hi & Ho & Hc & Hr & Hf'); [lia|].
    change (Nat.iter (S (S n)) (move_at dt r) (Some t))
      with (move_at dt r (Nat.iter (S n) (move_at dt r) (Some t))).
    rewrite E. simpl. rewrite Hf'.
    eexists; split; [reflexivity|]. unfold moved_task; simpl.
    split; [assert (inject_Z (Z.of_nat (S (S n))) == inject_Z (Z.of_nat (S n)) + 1) as E1
              by (rewrite (Nat2Z.inj_succ (S n)), <- Z.add_1_r, inject_Z_plus; reflexivity);
            rewrite Hs, E1; ring|].
    split; [rewrite Ht; reflexivity|].
    rewrite Hp, Ht, Hi, Ho, Hc. repeat split; try reflexivity.
    + rewrite Hr. destruct r; reflexivity.
    + unfold isFixedTime in *. simpl. first [exact Hf | exact Hf'].
Qed.

(** [moveTasks ids delta newResourceId]: a task is moved once per
    occurrence of its id in [ids] (a repeated id moves it again), a task
    with a fixed time or an id not in the store is left as it is, and a
    moved task gets its start shifted, its end recomputed from the new
    start and its stored total duration, and the new resource when one is
    given; its phases and total duration are kept. *)
Theorem moveTasks_effect (ids : list string) (dt : Q) (r : option string)
    (s : DataState) (k : string) :
  let n := count_occ (fun a b : string => decide (a = b)) ids k in
  tasks (moveTasks ids dt r s) !! k = Nat.iter n (move_at dt r) (tasks s !! k) /\
  (tasks s !! k = None -> tasks (moveTasks ids dt r s) !! k = None) /\
  (~ In k ids -> tasks (moveTasks ids dt r s) !! k = tasks s !! k) /\
  (forall t, tasks s !! k = Some t -> isFixedTime t = true ->
     tasks (moveTasks ids dt r s) !! k = Some t) /\
  (forall t, tasks s !! k = Some t -> isFixedTime t = false -> In k ids ->
     exists t', tasks (moveTasks ids dt r s) !! k = Some t' /\
       startTime t' == startTime t + inject_Z (Z.of_nat n) * dt /\
       _endTime t' == startTime t' + _totalDuration t * 60 * 1000 /\
       phases t' = phases t /\ _totalDuration t' = _totalDuration t /\
       resourceId t' = default (resourceId t) r).
Proof.
  intros n. unfold moveTasks; simpl. rewrite moveTasks_fold_lookup. fold n.
  split; [reflexivity|]. split; [intros ->; apply move_at_none|].
  split; [intros Hk; unfold n; rewrite (proj1 (count_occ_not_In _ _ _) Hk); reflexivity|].
  split; [intros t -> Hf; apply move_at_fixed; exact Hf|].
  intros t Ht Hf Hin. rewrite Ht.
  destruct (move_at_unfixed dt r t n Hf) as (t' & E & Hs & He & Hp & Htot & _ & _ & _ & Hr & _).
  - unfold n. apply count_occ_In. exact Hin.
  - exists t'. repeat split; assumption.
Qed.






(** [updateTask] never adds or removes a task and changes only the task it
    names; for an id that is not in the store it changes nothing. *)
Theorem updateTask_keys (taskId k : string) (u : TaskUpdate) (s : DataState) :
  dom (tasks (updateTask taskId u s)) = dom (tasks s) /\
  (k <> taskId -> tasks (updateTask taskId u s) !! k = tasks s !! k) /\
  (tasks s !! taskId = None -> updateTask taskId u s = s) /\
  resources (updateTask taskId u s) = resources s /\
  dependencies (updateTask taskId u s) = dependencies s.
Proof.
  unfold updateTask, updateTask_tasks; simpl.
  destruct (tasks s !! taskId) as [t|] eqn:E.
  - split; [|split; [|split; [intros H; discriminate H|split; reflexivity]]].
    + rewrite dom_insert_L. apply leibniz_equiv. apply elem_of_dom_2 in E. set_solver.
    + intros Hk. apply lookup_insert_ne. congruence.
  - split; [reflexivity|]. split; [reflexivity|].
    split; [|split; reflexivity].
    intros _. destruct s; reflexivity.
Qed.

(** [addDependency] stores the dependency under its id, replacing one with
    the same id; [removeDependency] of that id afterwards gives back the
    dependencies as they were when the id was free; neither touches the
    tasks. *)
Theorem dependency_add_remove (dep : TaskDependency) (s : DataState) (k : string) :
  dependencies (addDependency dep s) !! dep_id dep = Some dep /\
  (k <> dep_id dep -> dependencies (addDependency dep s) !! k = dependencies s !! k) /\
  (dependencies s !! dep_id dep = None ->
     removeDependency (dep_id dep) (addDependency dep s) = s) /\
  dependencies (removeDependency k s) !! k = None /\
  tasks (addDependency dep s) = tasks s /\ tasks (removeDependency k s) = tasks s.
Proof.
  unfold addDependency, removeDependency, set_dependencies; simpl.
  split; [apply lookup_insert_eq|].
  split; [intros Hk; apply lookup_insert_ne; congruence|].
  split; [|split; [apply lookup_delete_eq|split; reflexivity]].
  intros H. rewrite delete_insert_id by exact H. destruct s; reflexivity.
Qed.

(** ** The indexes of [IndexManager.buildIndexes] *)

Lemma addToIndex_In (k v : string) (m : gmap string (list string)) (j x : string) :
  In x (default [] (addToIndex k v m !! j)) <-> In x (default [] (m !! j)) \/ (k = j /\ x = v).
Proof.
  unfold addToIndex, setAdd. destruct (decide (k = j)) as [<-|Hne].
  - rewrite lookup_insert_eq. simpl.
    destruct (in_dec _ v (default [] (m !! k))) as [Hv|Hv].
    + split; [intros H; left; exact H|intros [H|[_ ->]]; [exact H|exact Hv]].
    + rewrite in_app_iff. simpl. intuition.
  - rewrite lookup_insert_ne by exact Hne. intuition.
Qed.

Lemma addToIndex_NoDup (k v : string) (m : gmap string (list string)) :
  (forall j, List.NoDup (default [] (m !! j))) ->
  forall j, List.NoDup (default [] (addToIndex k v m !! j)).
Proof.
  intros H j. unfold addToIndex, setAdd. destruct (decide (k = j)) as [<-|Hne].
  - rewrite lookup_insert_eq. simpl. destruct (in_dec _ v (default [] (m !! k))) as [Hv|Hv].
    + apply H.
    + apply NoDup_snoc'; [apply H|exact Hv].
  - rewrite lookup_insert_ne by exact Hne. apply H.
Qed.

Lemma index_fold_In {A} (kf vf : A -> string) (l : list A) :
  forall (m : gmap string (list string)) (j x : string),
  In x (default [] (fold_left (fun m a => addToIndex (kf a) (vf a) m) l m !! j)) <->
  In x (default [] (m !! j)) \/ exists a, In a l /\ kf a = j /\ vf a = x.
Proof.
  induction l as [|a l IH]; intros m j x; simpl.
  - split; [intros H; left; exact H|intros [H|[? [[] _]]]; exact H].
  - rewrite IH, addToIndex_In. split.
    + intros [[H|[Hk Hv]]|[b [Hb Hj]]];
        [left; exact H|right; exists a; split; [left; reflexivity|split; congruence]
        |right; exists b; split; [right; exact Hb|exact Hj]].
    + intros [H|[b [[<-|Hb] [Hj Hv]]]];
        [left; left; exact H|left; right; split; congruence|right; exists b; auto].
Qed.

Lemma index_fold_NoDup {A} (kf vf : A -> string) (l : list A) :
  forall (m : gmap string (list string)),
  (forall j, List.NoDup (default [] (m !! j))) ->
  forall j, List.NoDup (default [] (fold_left (fun m a => addToIndex (kf a) (vf a) m) l m !! j)).
Proof.
  induction l as [|a l IH]; intros m H; simpl; [exact H|].
  apply IH. apply addToIndex_NoDup. exact H.
Qed.

Lemma empty_index_NoDup : forall j : string,
  List.NoDup (default [] ((∅ : gmap string (list string)) !! j)).
Proof. intros j. rewrite lookup_empty. apply List.NoDup_nil. Qed.

Lemma empty_index_In (j x : string) :
  In x (default [] ((∅ : gmap string (list string)) !! j)) <-> False.
Proof. rewrite lookup_empty. simpl. tauto. Qed.

(** [getTasksByResource] and [getTasksByOrder] on the built indexes list,
    without duplicates, exactly the ids of the tasks with that resource or
    order (an unknown resource or order gives the empty list). *)
Theorem getTasksBy_spec (ts : list Task) (deps : list TaskDependency)
    (rows : list VirtualRow) (r o x : string) :
  let im := buildIndexes ts deps rows in
  (In x (getTasksByResource im r) <-> exists t, In t ts /\ resourceId t = r /\ id t = x) /\
  List.NoDup (getTasksByResource im r) /\
  (In x (getTasksByOrder im o) <-> exists t, In t ts /\ orderId t = o /\ id t = x) /\
  List.NoDup (getTasksByOrder im o).
Proof.
  intros im. unfold im, getTasksByResource, getTasksByOrder, buildIndexes; simpl.
  unfold buildResourceIndex, buildOrderIndex.
  split; [|split; [|split]].
  - rewrite (index_fold_In resourceId id), empty_index_In. tauto.
  - apply (index_fold_NoDup resourceId id), empty_index_NoDup.
  - rewrite (index_fold_In orderId id), empty_index_In. tauto.
  - apply (index_fold_NoDup orderId id), empty_index_NoDup.
Qed.

(** The dependency graph of the built indexes: [getPredecessors x] lists,
    without duplicates, the predecessors of the dependencies whose
    successor is [x], and [getSuccessors x] the successors of those whose
    predecessor is [x]. *)
Theorem dependency_index_edges (ts : list Task) (deps : list TaskDependency)
    (rows : list VirtualRow) (x y : string) :
  let di := im_dependencies (buildIndexes ts deps rows) in
  (In y (getPredecessors di x) <->
     exists dep, In dep deps /\ successorId dep = x /\ predecessorId dep = y) /\
  List.NoDup (getPredecessors di x) /\
  (In y (getSuccessors di x) <->
     exists dep, In dep deps /\ predecessorId dep = x /\ successorId dep = y) /\
  List.NoDup (getSuccessors di x).
Proof.
  intros di. unfold di, getPredecessors, getSuccessors, buildIndexes; simpl.
  unfold buildPredecessorIndex, buildSuccessorIndex.
  split; [|split; [|split]].
  - rewrite (index_fold_In successorId predecessorId), empty_index_In. tauto.
  - apply (index_fold_NoDup successorId predecessorId), empty_index_NoDup.
  - rewrite (index_fold_In predecessorId successorId), empty_index_In. tauto.
  - apply (index_fold_NoDup predecessorId successorId), empty_index_NoDup.
Qed.

Lemma taskDeps_fold_In (l : list TaskDependency) :
  forall (m : gmap string (list string)) (j x : string),
  In x (default [] (fold_left (fun m dep =>
               addToIndex (successorId dep) (dep_id dep)
                 (addToIndex (predecessorId dep) (dep_id dep) m)) l m !! j)) <->
  In x (default [] (m !! j)) \/
  exists dep, In dep l /\ (predecessorId dep = j \/ successorId dep = j) /\ dep_id dep = x.
Proof.
  induction l as [|a l IH]; intros m j x; simpl.
  - split; [intros H; left; exact H|intros [H|[? [[] _]]]; exact H].
  - rewrite IH, !addToIndex_In. split.
    + intros [[[H|[Hk Hv]]|[Hk Hv]]|[b [Hb Hj]]];
        [left; exact H
        |right; exists a; split; [left; reflexivity|split; [left|]; congruence]
        |right; exists a; split; [left; reflexivity|split; [right|]; congruence]
        |right; exists b; split; [right; exact Hb|exact Hj]].
    + intros [H|[b [[<-|Hb] [[Hj|Hj] Hx]]]];
        [left; left; left; exact H|left; left; right; split; congruence
        |left; right; split; congruence
        |right; exists b; auto|right; exists b; auto].
Qed.

Lemma buildDependencyMap_lookup (deps : list TaskDependency) :
  forall (m : gmap string TaskDependency) (i : string) (d : TaskDependency),
  fold_left (fun m dep => <[dep_id dep := dep]> m) deps m !! i = Some d ->
  m !! i = Some d \/ (In d deps /\ dep_id d = i).
Proof.
  induction deps as [|a deps IH]; intros m i d H; simpl in H; [left; exact H|].
  destruct (IH _ _ _ H) as [H1|[H1 H2]]; [|right; split; [right; exact H1|exact H2]].
  destruct (decide (dep_id a = i)) as [<-|Hne].
  - rewrite lookup_insert_eq in H1. injection H1 as <-. right. split; [left|]; reflexivity.
  - rewrite lookup_insert_ne in H1 by exact Hne. left. exact H1.
Qed.

Lemma depmap_fold_absent (deps : list TaskDependency) :
  forall (m : gmap string TaskDependency) (k : string),
  (forall x, In x deps -> dep_id x <> k) ->
  fold_left (fun m dep => <[dep_id dep := dep]> m) deps m !! k = m !! k.
Proof.
  induction deps as [|x l IH]; intros m k H; [reflexivity|]. simpl.
  rewrite IH by (intros y Hy; apply H; right; exact Hy).
  apply lookup_insert_ne. intros E. apply (H x); [left; reflexivity|exact E].
Qed.

Lemma buildDependencyMap_in (deps : list TaskDependency) :
  forall (m : gmap string TaskDependency) (d : TaskDependency),
  List.NoDup (map dep_id deps) -> In d deps ->
  fold_left (fun m dep => <[dep_id dep := dep]> m) deps m !! dep_id d = Some d.
Proof.
  induction deps as [|a deps IH]; intros m d Hnd Hd; [destruct Hd|]. simpl.
  simpl in Hnd. apply List.NoDup_cons_iff in Hnd as [Ha Hnd].
  destruct Hd as [<-|Hd].
  - rewrite depmap_fold_absent; [apply lookup_insert_eq|].
    intros y Hy E. apply Ha. rewrite <- E. apply in_map. exact Hy.
  - apply IH; assumption.
Qed.

(** When the dependency ids are distinct, [getTaskDependencies x] on the
    built indexes returns exactly the dependencies that have [x] as
    predecessor or successor. *)
Theorem getTaskDependencies_spec (ts : list Task) (deps : list TaskDependency)
    (rows : list VirtualRow) (x : string) (d : TaskDependency) :
  List.NoDup (map dep_id deps) ->
  (In d (getTaskDependencies (buildIndexes ts deps rows) x) <->
     In d deps /\ (predecessorId d = x \/ successorId d = x)).
Proof.
  intros Hnd. unfold getTaskDependencies, buildIndexes; cbn [taskDependenciesIndex dependencyMap].
  unfold buildTaskDependenciesIndex, buildDependencyMap.
  remember (fold_left (fun m dep => addToIndex (successorId dep) (dep_id dep)
              (addToIndex (predecessorId dep) (dep_id dep) m)) deps ∅) as T eqn:HT.
  remember (fold_left (fun m dep => <[dep_id dep := dep]> m) deps ∅) as DM eqn:HDM.
  assert (Hdm : forall i d', DM !! i = Some d' <-> In d' deps /\ dep_id d' = i).
  { intros i d'. subst DM. split.
    - intros H. apply buildDependencyMap_lookup in H as [H|H];
        [rewrite lookup_empty in H; discriminate H|exact H].
    - intros [H <-]. apply buildDependencyMap_in; assumption. }
  assert (Hti : forall y, In y (default [] (T !! x)) <->
            exists dep, In dep deps /\ (predecessorId dep = x \/ successorId dep = x) /\ dep_id dep = y).
  { intros y. subst T. rewrite taskDeps_fold_In, empty_index_In. tauto. }
  split.
  - destruct (T !! x) as [ids|]; [|intros []]. simpl in Hti.
    intros Hd. apply list_elem_of_In, list_elem_of_omap in Hd as [i [Hi Hdi]].
    apply list_elem_of_In, Hti in Hi as [dep [Hdep [Hx Hid]]].
    assert (E1 : DM !! i = Some dep) by (apply Hdm; auto).
    rewrite Hdi in E1. injection E1 as ->. auto.
  - intros [Hd Hx].
    assert (Hi : In (dep_id d) (default [] (T !! x))) by (apply Hti; exists d; auto).
    destruct (T !! x) as [ids|]; [|destruct Hi]. simpl in Hi.
    apply list_elem_of_In, list_elem_of_omap. exists (dep_id d).
    split; [apply list_elem_of_In; exact Hi|]. apply Hdm; auto.
Qed.

Lemma getTaskDependencies_spec_witness :
  List.NoDup (map dep_id [mkDependency "d1" "a" "b" FS 0]) /\
  (In (mkDependency "d1" "a" "b" FS 0)
      (getTaskDependencies (buildIndexes [] [mkDependency "d1" "a" "b" FS 0] []) "a") <->
   In (mkDependency "d1" "a" "b" FS 0) [mkDependency "d1" "a" "b" FS 0] /\
   (predecessorId (mkDependency "d1" "a" "b" FS 0) = "a" \/
    successorId (mkDependency "d1" "a" "b" FS 0) = "a")).
Proof.
  assert (H : List.NoDup (map dep_id [mkDependency "d1" "a" "b" FS 0]))
    by (simpl; apply List.NoDup_cons; [intros []|apply List.NoDup_nil]).
  split; [exact H|].
  exact (getTaskDependencies_spec [] [mkDependency "d1" "a" "b" FS 0] [] "a"
           (mkDependency "d1" "a" "b" FS 0) H).
Defined.

Lemma reachable_built_iff (ts : list Task) (deps : list TaskDependency)
    (rows : list VirtualRow) (direction : Direction) (origin x : string) :
  reachable (im_dependencies (buildIndexes ts deps rows)) direction origin x <->
  depLinked deps direction origin x.
Proof.
  assert (Hp : forall v w, In w (getPredecessors (im_dependencies (buildIndexes ts deps rows)) v) <->
            exists dep, In dep deps /\ successorId dep = v /\ predecessorId dep = w).
  { intros v w. unfold getPredecessors, buildIndexes; simpl. unfold buildPredecessorIndex.
    rewrite (index_fold_In successorId predecessorId), empty_index_In. tauto. }
  assert (Hs : forall v w, In w (getSuccessors (im_dependencies (buildIndexes ts deps rows)) v) <->
            exists dep, In dep deps /\ predecessorId dep = v /\ successorId dep = w).
  { intros v w. unfold getSuccessors, buildIndexes; simpl. unfold buildSuccessorIndex.
    rewrite (index_fold_In predecessorId successorId), empty_index_In. tauto. }
  split.
  - induction 1 as [|y z Hy IH Hz]; [constructor|].
    unfold nextTasks in Hz. apply in_app_iff in Hz as [Hz|Hz].
    + destruct (usesPredecessors direction) eqn:Ed; [|destruct Hz].
      apply Hp in Hz as [dep [Hd [<- <-]]]. apply link_pred; assumption.
    + destruct (usesSuccessors direction) eqn:Ed; [|destruct Hz].
      apply Hs in Hz as [dep [Hd [<- <-]]]. apply link_succ; assumption.
  - induction 1 as [|dep Hd Ed _ IH|dep Hd Ed _ IH]; [constructor| |].
    + apply reach_step with (successorId dep); [exact IH|].
      unfold nextTasks. apply in_app_iff. left. rewrite Ed. apply Hp. exists dep. auto.
    + apply reach_step with (predecessorId dep); [exact IH|].
      unfold nextTasks. apply in_app_iff. right. rewrite Ed. apply Hs. exists dep. auto.
Qed.

(** On the indexes built from a dependency list, [getDependencyChain]
    terminates (within [chainFuel] iterations, cycles included) and returns,
    without duplicates, exactly the tasks other than the start that are
    linked to it through the dependencies in the requested direction. *)
Theorem getDependencyChain_built (ts : list Task) (deps : list TaskDependency)
    (rows : list VirtualRow) (taskId : string) (direction : Direction) :
  let di := im_dependencies (buildIndexes ts deps rows) in
  exists r, getDependencyChain (chainFuel di taskId) di taskId direction = Some r /\
    List.NoDup r /\
    (forall x, In x r <-> x <> taskId /\ depLinked deps direction taskId x).
Proof.
  intros di.
  destruct (chain_loop_ok di direction taskId (chainFuel di taskId) [] [taskId])
    as (V & HV & Hnd & _ & _ & Hr & Hcl & Ho).
  - repeat split.
    + apply List.NoDup_nil.
    + intros x [].
    + intros x [<-|[]]. left. reflexivity.
    + intros x [[]|[<-|[]]]. constructor.
    + intros v w [].
    + right. left. reflexivity.
  - unfold chainMeasure, chainU, chainD, chainFuel. simpl. lia.
  - exists (List.filter (fun x => negb (String.eqb x taskId)) V).
    unfold getDependencyChain. rewrite HV. split; [reflexivity|]. split.
    + apply List.NoDup_filter, Hnd.
    + intros x. rewrite filter_In, negb_true_iff, String.eqb_neq.
      unfold di. rewrite <- reachable_built_iff. fold di. split.
      * intros [Hx Hne]. split; [exact Hne|]. apply Hr. left. exact Hx.
      * intros [Hne Hreach]. split; [|exact Hne].
        clear Hne. induction Hreach as [|y z Hy IHy Hz].
        -- destruct Ho as [H|[]]. exact H.
        -- destruct (Hcl y z IHy Hz) as [H|[]]. exact H.
Qed.

(** ** Rows: [getResourceAtY] and [getVisibleRows] *)

Lemma JS_lt_false_iff (a b : Q) : JS_lt a b = false <-> b <= a.
Proof.
  unfold JS_lt. rewrite negb_false_iff. apply Qle_bool_iff.
Qed.

Lemma findIndex_Some {A} (p : A -> bool) (l : list A) :
  forall i, findIndex p l = Some i ->
  exists x, l !! i = Some x /\ p x = true /\
    (forall k y, (k < i)%nat -> l !! k = Some y -> p y = false).
Proof.
  induction l as [|a l IH]; intros i H; simpl in H; [discriminate H|].
  destruct (p a) eqn:Ea.
  - injection H as <-. exists a. split; [reflexivity|]. split; [exact Ea|]. intros k y Hk; lia.
  - destruct (findIndex p l) as [j|] eqn:Ej; simpl in H; [|discriminate H].
    injection H as <-. destruct (IH j eq_refl) as (x & Hx & Hp & Hb).
    exists x. split; [exact Hx|]. split; [exact Hp|].
    intros [|k] y Hk Hy; simpl in Hy; [injection Hy as <-; exact Ea|].
    apply (Hb k); [lia|exact Hy].
Qed.

Lemma findIndex_None {A} (p : A -> bool) (l : list A) :
  findIndex p l = None -> forall k y, l !! k = Some y -> p y = false.
Proof.
  induction l as [|a l IH]; simpl; intros H k y Hy; [discriminate Hy|].
  destruct (p a) eqn:Ea; [discriminate H|].
  destruct (findIndex p l); [discriminate H|].
  destruct k as [|k]; simpl in Hy; [injection Hy as <-; exact Ea|]. apply (IH eq_refl k y Hy).
Qed.

(** [getVisibleRows] returns a slice of the rows with [0 <= startIndex <=
    endIndex <= rows.length] (all zero for no rows), and, when the row tops
    never decrease, the slice holds every row overlapping the viewport
    (bottom below [scrollY], top at most [scrollY + viewportHeight]). *)
Theorem getVisibleRows_spec (rows : list VirtualRow) (sY vh : Q)
    (vis : list VirtualRow) (s e : nat) :
  getVisibleRows rows sY vh = (vis, s, e) ->
  (s <= e <= length rows)%nat /\ vis = take (e - s) (drop s rows) /\
  length vis = (e - s)%nat /\ (rows = [] -> vis = [] /\ s = 0%nat /\ e = 0%nat) /\
  ((forall i j ri rj, (i <= j)%nat -> rows !! i = Some ri -> rows !! j = Some rj ->
      virtualY ri <= virtualY rj) ->
   forall i row, rows !! i = Some row -> sY < virtualY row + row_height row ->
     virtualY row <= sY + vh -> (s <= i < e)%nat /\ vis !! (i - s)%nat = Some row).
Proof.
  intros H. unfold getVisibleRows in H.
  destruct rows as [|r0 rest] eqn:Er.
  - injection H as <- <- <-. simpl. split; [lia|]. split; [reflexivity|].
    split; [reflexivity|]. split; [auto|]. intros _ i row Hi. discriminate Hi.
  - cbv beta iota zeta in H. rewrite <- Er in H.
    assert (Hne : (0 < length rows)%nat) by (rewrite Er; simpl; lia).
    set (pb := fun row => JS_lt sY (virtualY row + row_height row)) in H.
    set (pt := fun row => JS_lt (sY + vh) (virtualY row)) in H.
    set (s0 := default 0%nat (findIndex pb rows)) in H.
    assert (Hs0 : (s0 < length rows)%nat).
    { unfold s0. destruct (findIndex pb rows) as [i|] eqn:E; simpl; [|exact Hne].
      destruct (findIndex_Some pb rows i E) as (x & Hx & _). eapply lookup_lt_Some; exact Hx. }
    set (e0 := match findIndex pt (drop s0 rows) with
               | Some j => (s0 + j)%nat | None => length rows end) in H.
    assert (He0 : (s0 <= e0 <= length rows)%nat).
    { unfold e0. destruct (findIndex pt (drop s0 rows)) as [j|] eqn:E; [|lia].
      destruct (findIndex_Some pt _ j E) as (x & Hx & _).
      apply lookup_lt_Some in Hx. rewrite length_drop in Hx. lia. }
    injection H as Hv Hs He. rewrite <- Er.
    assert (Hse : (s <= e <= length rows)%nat) by (rewrite <- Hs, <- He; unfold BUFFER; lia).
    assert (Hvis : vis = take (e - s) (drop s rows)) by (rewrite <- Hv, <- Hs, <- He; reflexivity).
    split; [exact Hse|]. split; [exact Hvis|].
    split; [rewrite Hvis, length_take, length_drop; lia|].
    split; [intros Hr; rewrite Hr in Er; discriminate Er|].
    intros Hsort i row Hi Hb Ht.
    assert (Hi_le : (s0 <= i)%nat).
    { unfold s0. destruct (findIndex pb rows) as [k|] eqn:E; simpl; [|lia].
      destruct (findIndex_Some pb rows k E) as (x & Hx & _ & Hfirst).
      destruct (Nat.lt_ge_cases i k) as [Hlt|Hge]; [|exact Hge].
      exfalso. pose proof (Hfirst i row Hlt Hi) as Hf. unfold pb in Hf.
      rewrite JS_lt_false_iff in Hf. lra. }
    assert (Hi_lt : (i < e0)%nat).
    { unfold e0. destruct (findIndex pt (drop s0 rows)) as [j|] eqn:E;
        [|eapply lookup_lt_Some; exact Hi].
      destruct (findIndex_Some pt _ j E) as (x & Hx & Hpx & _).
      rewrite lookup_drop in Hx.
      destruct (Nat.lt_ge_cases i (s0 + j)) as [Hlt|Hge]; [exact Hlt|].
      exfalso. pose proof (Hsort _ _ _ _ Hge Hx Hi) as Hle.
      unfold pt in Hpx. apply JS_lt_spec in Hpx. lra. }
    assert (His : (s <= i < e)%nat).
    { split; [rewrite <- Hs; unfold BUFFER; lia|].
      rewrite <- He. apply lookup_lt_Some in Hi. unfold BUFFER. lia. }
    split; [exact His|].
    rewrite Hvis, lookup_take_lt by lia. rewrite lookup_drop.
    replace (s + (i - s))%nat with i by lia. exact Hi.
Qed.

Lemma getVisibleRows_spec_witness :
  getVisibleRows rows12 100 60 = (take 8 (drop 0 rows12), 0%nat, 8%nat) /\
  (0 <= 8 <= length rows12)%nat /\ length (take 8 (drop 0 rows12)) = (8 - 0)%nat.
Proof.
  assert (H : getVisibleRows rows12 100 60 = (take 8 (drop 0 rows12), 0%nat, 8%nat))
    by (vm_compute; reflexivity).
  split; [exact H|].
  destruct (getVisibleRows_spec rows12 100 60 _ _ _ H) as (H1 & _ & H3 & _).
  split; [exact H1|exact H3].
Defined.

Lemma resourceAtY_cases (rows : list VirtualRow) (vY : Q) :
  (forall r, resourceAtY rows vY = Some r ->
     exists pre row post, rows = pre ++ row :: post /\
       row_resourceId row = Some r /\ r <> "" /\ isGroupHeader row = false /\
       virtualY row <= vY < virtualY row + row_height row /\
       (forall row' r', In row' pre -> row_resourceId row' = Some r' -> r' <> "" ->
          isGroupHeader row' = false ->
          ~ (virtualY row' <= vY < virtualY row' + row_height row'))) /\
  (resourceAtY rows vY = None <->
     forall row r, In row rows -> row_resourceId row = Some r -> r <> "" ->
       isGroupHeader row = false -> ~ (virtualY row <= vY < virtualY row + row_height row)).
Proof.
  induction rows as [|row rest [IH1 IH2]]; simpl.
  - split; [intros r H; discriminate H|]. split; [intros _ row r []|reflexivity].
  - assert (Hhit : forall r, row_resourceId row = Some r ->
              (negb (isGroupHeader row) && negb (String.eqb r "")
               && Qle_bool (virtualY row) vY && JS_lt vY (virtualY row + row_height row) = true
               <-> r <> "" /\ isGroupHeader row = false /\
                   virtualY row <= vY < virtualY row + row_height row)).
    { intros r _. rewrite !andb_true_iff, !negb_true_iff, String.eqb_neq, Qle_bool_iff, JS_lt_spec.
      destruct (isGroupHeader row); intuition discriminate. }
    destruct (row_resourceId row) as [r0|] eqn:Er.
    + specialize (Hhit r0 eq_refl).
      destruct (negb (isGroupHeader row) && negb (String.eqb r0 "")
               && Qle_bool (virtualY row) vY && JS_lt vY (virtualY row + row_height row)) eqn:Eh.
      * destruct (proj1 Hhit eq_refl) as (Hr & Hg & Hy).
        split.
        -- intros r H. injection H as <-. exists [], row, rest.
           split; [reflexivity|]. repeat split; try assumption; try apply Hy.
           intros row' r' [].
        -- split; [intros H; discriminate H|]. intros H. exfalso.
           apply (H row r0 (or_introl eq_refl) Er Hr Hg Hy).
      * split.
        -- intros r H. destruct (IH1 r H) as (pre & row1' & post & Hrows & Hrest).
           exists (row :: pre), row1', post. split; [rewrite Hrows; reflexivity|].
           destruct Hrest as (A & B & C & D & E). repeat split; try assumption; try apply D.
           intros row' r' [<-|Hin]; [|apply E; exact Hin].
           intros Hr' Hn Hg Hy. rewrite Er in Hr'. injection Hr' as <-.
           assert (Ht : r0 <> "" /\ isGroupHeader row = false /\
                        virtualY row <= vY < virtualY row + row_height row) by auto.
           apply Hhit in Ht. congruence.
        -- rewrite IH2. split.
           ++ intros H row' r' [<-|Hin]; [|apply H; exact Hin].
              intros Hr' Hn Hg Hy. rewrite Er in Hr'. injection Hr' as <-.
              assert (Ht : r0 <> "" /\ isGroupHeader row = false /\
                           virtualY row <= vY < virtualY row + row_height row) by auto.
              apply Hhit in Ht. congruence.
           ++ intros H row' r' Hin. apply H. right. exact Hin.
    + split.
      * intros r H. destruct (IH1 r H) as (pre & row1' & post & Hrows & Hrest).
        exists (row :: pre), row1', post. split; [rewrite Hrows; reflexivity|].
        destruct Hrest as (A & B & C & D & E). repeat split; try assumption; try apply D.
        intros row' r' [<-|Hin]; [|apply E; exact Hin].
        intros Hr'. rewrite Er in Hr'. discriminate Hr'.
      * rewrite IH2. split.
        -- intros H row' r' [<-|Hin]; [|apply H; exact Hin].
           intros Hr'. rewrite Er in Hr'. discriminate Hr'.
        -- intros H row' r' Hin. apply H. right. exact Hin.
Qed.

(** [getResourceAtY y] returns the resource of the first row that is not a
    group header, has a non-empty resource id and spans [y]
    ([virtualY <= y < virtualY + height]); it returns [null] exactly when
    there is no such row. *)
Theorem getResourceAtY_spec (im : IndexManager) (vY : Q) :
  (forall r, getResourceAtY im vY = Some r ->
     exists pre row post, im_virtualRows im = pre ++ row :: post /\
       row_resourceId row = Some r /\ r <> "" /\ isGroupHeader row = false /\
       virtualY row <= vY < virtualY row + row_height row /\
       (forall row' r', In row' pre -> row_resourceId row' = Some r' -> r' <> "" ->
          isGroupHeader row' = false ->
          ~ (virtualY row' <= vY < virtualY row' + row_height row'))) /\
  (getResourceAtY im vY = None <->
     forall row r, In row (im_virtualRows im) -> row_resourceId row = Some r -> r <> "" ->
       isGroupHeader row = false -> ~ (virtualY row <= vY < virtualY row + row_height row)).
Proof. unfold getResourceAtY. apply resourceAtY_cases. Qed.

(** ** Spatial queries *)

Lemma build_bounds_origin (rbr : gmap string VirtualRow) (ts : list Task) :
  forall (m : gmap string BBox) (k : string) (b : BBox),
  fold_left (fun m task =>
               match rbr !! resourceId task with
               | None => m
               | Some row => <[id task := taskBounds task row]> m
               end) ts m !! k = Some b ->
  m !! k = Some b \/
  exists t row, In t ts /\ rbr !! resourceId t = Some row /\ id t = k /\ b = taskBounds t row.
Proof.
  induction ts as [|t ts IH]; intros m k b H; simpl in H; [left; exact H|].
  destruct (IH _ _ _ H) as [H1|(t' & row' & A & B & C & D)];
    [|right; exists t', row'; split; [right; exact A|auto]].
  destruct (rbr !! resourceId t) as [row|] eqn:E; [|left; exact H1].
  destruct (decide (id t = k)) as [<-|Hne].
  - rewrite lookup_insert_eq in H1. injection H1 as <-.
    right. exists t, row. split; [left; reflexivity|auto].
  - rewrite lookup_insert_ne in H1 by exact Hne. left. exact H1.
Qed.

Lemma rebuild_items_iff (ts : list Task) (rows : list VirtualRow) (P : BBox -> bool) (x : string) :
  In x (map item_taskId (List.filter (fun it => P (item_box it)) (tree (rebuild ts rows)))) <->
  exists t row, In t ts /\ rowByResource rows !! resourceId t = Some row /\ id t = x /\
                P (taskBounds t row) = true.
Proof.
  unfold rebuild; simpl. rewrite in_map_iff. split.
  - intros (it & <- & Hin). apply filter_In in Hin as [Hin Hp].
    destruct (build_items_origin _ _ _ Hin) as (t & row & Ht & Hr & ->).
    exists t, row. auto.
  - intros (t & row & Ht & Hr & <- & Hp). exists (mkItem (taskBounds t row) (id t)).
    split; [reflexivity|]. apply filter_In. split; [apply build_items_in; assumption|exact Hp].
Qed.

(** After [rebuild ts rows]: [queryTimeRange start end] returns the ids of
    the tasks that have a row and whose span [startTime, _endTime] meets
    [start, end] (the whole height counts), [queryRect] those whose box
    meets the rectangle (edges included), and [getTaskBounds] only gives a
    box for a task with a row, that row's box.  A task whose resource has
    no row is never found. *)
Theorem spatial_queries (ts : list Task) (rows : list VirtualRow)
    (x : string) (s e mnX mnY mxX mxY : Q) (b : BBox) :
  let idx := rebuild ts rows in
  (In x (queryTimeRange idx s e) <->
     exists t row, In t ts /\ rowByResource rows !! resourceId t = Some row /\ id t = x /\
       startTime t <= e /\ s <= _endTime t) /\
  (In x (queryRect idx mnX mnY mxX mxY) <->
     exists t row, In t ts /\ rowByResource rows !! resourceId t = Some row /\ id t = x /\
       startTime t <= mxX /\ mnX <= _endTime t /\
       virtualY row <= mxY /\ mnY <= virtualY row + row_height row) /\
  (getTaskBounds idx x = Some b ->
     exists t row, In t ts /\ rowByResource rows !! resourceId t = Some row /\ id t = x /\
       b = taskBounds t row).
Proof.
  intros idx. split; [|split].
  - unfold idx, queryTimeRange.
    rewrite (rebuild_items_iff ts rows (fun bx => Qle_bool (minX bx) e && Qle_bool s (maxX bx))).
    unfold taskBounds; simpl. split.
    + intros (t & row & A & B & C & D). apply andb_true_iff in D as [D1 D2].
      apply Qle_bool_iff in D1, D2. exists t, row. auto.
    + intros (t & row & A & B & C & D1 & D2). exists t, row.
      repeat split; try assumption. apply andb_true_iff. rewrite !Qle_bool_iff. auto.
  - unfold idx, queryRect, search.
    rewrite (rebuild_items_iff ts rows (fun bx => intersects (mkBBox mnX mnY mxX mxY) bx)).
    unfold intersects, taskBounds; simpl. split.
    + intros (t & row & A & B & C & D). rewrite !andb_true_iff, !Qle_bool_iff in D.
      exists t, row. intuition.
    + intros (t & row & A & B & C & D). exists t, row.
      repeat split; try assumption. rewrite !andb_true_iff, !Qle_bool_iff. intuition.
  - unfold idx, getTaskBounds, rebuild; simpl. unfold build_bounds. intros H.
    apply build_bounds_origin in H as [H|H]; [rewrite lookup_empty in H; discriminate H|exact H].
Qed.

(** ** Drag previews along a pointer path *)








(** ** The row of a resource *)

Lemma snoc_split {A} (l : list A) (a : A) (pre post : list A) (row : A) :
  l ++ [a] = pre ++ row :: post <->
  (post = [] /\ pre = l /\ row = a) \/
  (exists post', post = post' ++ [a] /\ l = pre ++ row :: post').
Proof.
  split.
  - intros H. destruct post as [|b post' _] using rev_ind.
    + left. apply app_inj_tail in H as [-> ->]. auto.
    + right. exists post'. rewrite app_comm_cons, app_assoc in H.
      apply app_inj_tail in H as [-> ->]. auto.
  - intros [(-> & -> & ->)|(post' & -> & ->)]; [reflexivity|].
    rewrite app_comm_cons, app_assoc. reflexivity.
Qed.

(** [rowByResource] (the [rowByResourceId] map of the [IndexManager] and
    the map [SpatialIndex.rebuild] builds) maps a resource id to the last
    row carrying it; rows without a resource id or with an empty one are
    skipped. *)
Theorem rowByResource_last (rows : list VirtualRow) (r : string) (row : VirtualRow) :
  rowByResource rows !! r = Some row <->
  exists pre post, rows = pre ++ row :: post /\ row_resourceId row = Some r /\ r <> "" /\
    (forall row', In row' post -> row_resourceId row' <> Some r).
Proof.
  unfold rowByResource. induction rows as [|a l IH] using rev_ind; simpl.
  - rewrite lookup_empty. split; [intros H; discriminate H|].
    intros (pre & post & H & _). destruct (app_cons_not_nil pre post row H).
  - rewrite fold_left_app. simpl.
    assert (Hother : (forall r', row_resourceId a = Some r' -> r' <> "" -> r' <> r) ->
      ((exists pre post, l ++ [a] = pre ++ row :: post /\ row_resourceId row = Some r /\ r <> "" /\
          (forall row', In row' post -> row_resourceId row' <> Some r)) <->
       (exists pre post, l = pre ++ row :: post /\ row_resourceId row = Some r /\ r <> "" /\
          (forall row', In row' post -> row_resourceId row' <> Some r)))).
    { intros Hn. split.
      - intros (pre & post & Hs & Hr & Hne & Hp). apply snoc_split in Hs as [(-> & -> & ->)|(post' & -> & ->)].
        + exfalso. exact (Hn r Hr Hne eq_refl).
        + exists pre, post'. repeat split; try assumption.
          intros row' Hin. apply Hp. apply in_app_iff. left. exact Hin.
      - intros (pre & post & -> & Hr & Hne & Hp). exists pre, (post ++ [a]).
        split; [rewrite app_comm_cons, app_assoc; reflexivity|].
        repeat split; try assumption.
        intros row' Hin. apply in_app_iff in Hin as [Hin|[<-|[]]]; [apply Hp, Hin|].
        intros Ha. exact (Hn r Ha Hne eq_refl). }
    destruct (row_resourceId a) as [r'|] eqn:Ea.
    + destruct (String.eqb r' "") eqn:Ee.
      * apply String.eqb_eq in Ee. subst r'. rewrite IH, Hother; [reflexivity|].
        intros r'' H. injection H as <-. intros Hne. contradiction.
      * apply String.eqb_neq in Ee. destruct (decide (r' = r)) as [<-|Hne].
        -- rewrite lookup_insert_eq. split.
           ++ intros H. injection H as <-. exists l, []. split; [reflexivity|].
              repeat split; try assumption. intros row' [].
           ++ intros (pre & post & Hs & Hr & _ & Hp). apply snoc_split in Hs as [(-> & -> & ->)|(post' & -> & ->)];
                [reflexivity|].
              exfalso. apply (Hp a); [apply in_app_iff; right; left; reflexivity|exact Ea].
        -- rewrite lookup_insert_ne by exact Hne. rewrite IH, Hother; [reflexivity|].
           intros r'' H. injection H as <-. intros _. exact Hne.
    + rewrite IH, Hother; [reflexivity|]. intros r'' H. discriminate H.
Qed.
